(** * TradeX backend: aggregation engine, rate limiter, cache and
      ingestion client, embedded from the Python sources

    Sources embedded here:
    - [backend/api/cache.py]            ([OHLCV], [DataCache])
    - [backend/api/aggregator.py]       ([TimeframeAggregator] and the
                                         historical batch functions)
    - [backend/api/rate_limiter.py]     ([RateLimiter])
    - [backend/api/websocket_client.py] ([InsightSentryWebSocketClient])

    Modelling conventions.
    - Python exceptions are values of [exn]; a function that may raise
      returns a [result].
    - Bar fields ([time], prices, [volume]) are exact integers: prices in
      ticks, volume in lots, time in whole epoch seconds.  Floating-point
      rounding of prices is outside the model.
    - The rate limiter and the cache statistics use exact rationals ([Q])
      where Python uses floats.
    - [datetime.fromtimestamp] is the proleptic Gregorian calendar at a
      fixed offset from UTC; the platform-dependent range errors of
      [fromtimestamp] are outside the model. *)

From Stdlib Require Import ZArith QArith Qminmax Qround Lia Lqa.
From stdpp Require Import gmap strings list fin_maps.
From Stdlib Require Import Sorted.

Close Scope Q_scope.
Local Open Scope string_scope.
Local Open Scope list_scope.
Local Open Scope Z_scope.

(* ===================================================================== *)
(** * Python exceptions and results                                       *)
(* ===================================================================== *)

Module Py.

Inductive exn : Type :=
| ValueError (msg : string)
| KeyError (key : string)
| IndexError
| TypeError
| AttributeError
| ZeroDivisionError
| RuntimeError (msg : string).

Inductive result (A : Type) : Type :=
| Ok (a : A)
| Raise (e : exn).

Arguments Ok {A} a.
Arguments Raise {A} e.

#[global] Instance result_ret : MRet result := fun A a => Ok a.

#[global] Instance result_bind : MBind result :=
  fun A B f m => match m with Ok a => f a | Raise e => Raise e end.

(** [d[k]] on a dict: [KeyError] when the key is absent. *)
Definition getitem {V : Type} (k : string) (d : gmap string V) : result V :=
  match d !! k with
  | Some v => Ok v
  | None => Raise (KeyError k)
  end.

(** [max(xs)] and [min(xs)] over an iterable of numbers: [ValueError] on
    an empty one, otherwise a left-to-right scan keeping the first
    extremal value. *)
Definition py_max (xs : list Z) : result Z :=
  match xs with
  | [] => Raise (ValueError "max() arg is an empty sequence")
  | x :: rest => Ok (fold_left Z.max rest x)
  end.

Definition py_min (xs : list Z) : result Z :=
  match xs with
  | [] => Raise (ValueError "min() arg is an empty sequence")
  | x :: rest => Ok (fold_left Z.min rest x)
  end.

(** [sum(xs)]: left fold of [+] starting from [0]. *)
Definition py_sum (xs : list Z) : Z := fold_left Z.add xs 0.

(** [xs[0]] and [xs[-1]]: [IndexError] on an empty list. *)
Definition first {A : Type} (xs : list A) : result A :=
  match xs with
  | [] => Raise IndexError
  | x :: _ => Ok x
  end.

Definition final {A : Type} (xs : list A) : result A :=
  match xs with
  | [] => Raise IndexError
  | x :: rest => Ok (List.last rest x)
  end.

(** [xs[-n:]]: the last [n] elements, all of them when there are fewer. *)
Definition lastn {A : Type} (n : nat) (xs : list A) : list A :=
  drop (length xs - n) xs.

(** [range(0, stop, step)]: [ValueError] for a zero step. *)
Definition range_step (stop step : nat) : result (list nat) :=
  if (step =? 0)%nat then Raise (ValueError "range() arg 3 must not be zero")
  else Ok ((fun k => (k * step)%nat) <$> seq 0 (Nat.div (stop + step - 1) step)).

End Py.
Import Py.

(* ===================================================================== *)
(** * cache.py: the bar record                                            *)
(* ===================================================================== *)

Record OHLCV : Type := mkOHLCV {
  time : Z;
  open : Z;
  high : Z;
  low : Z;
  close : Z;
  volume : Z
}.

#[global] Instance OHLCV_eq_dec : EqDecision OHLCV.
Proof. solve_decision. Defined.

(* ===================================================================== *)
(** * datetime: civil dates of epoch seconds                              *)
(* ===================================================================== *)

Module Calendar.

Record date : Type := mkDate { year : Z; month : Z; day : Z }.

#[global] Instance date_eq_dec : EqDecision date.
Proof. solve_decision. Defined.

(** Civil date of a day number counted from 1970-01-01 (proleptic
    Gregorian calendar, era-based conversion). *)
Definition civil_from_days (days : Z) : date :=
  let z := days + 719468 in
  let era := z / 146097 in
  let doe := z - era * 146097 in
  let yoe := (doe - doe / 1460 + doe / 36524 - doe / 146096) / 365 in
  let y := yoe + era * 400 in
  let doy := doe - (365 * yoe + yoe / 4 - yoe / 100) in
  let mp := (5 * doy + 2) / 153 in
  let d := doy - (153 * mp + 2) / 5 + 1 in
  let m := if mp <? 10 then mp + 3 else mp - 9 in
  mkDate (if m <=? 2 then y + 1 else y) m d.

Definition days_from_civil (y m d : Z) : Z :=
  let y' := if m <=? 2 then y - 1 else y in
  let era := y' / 400 in
  let yoe := y' - era * 400 in
  let doy := (153 * (if 2 <? m then m - 3 else m + 9) + 2) / 5 + d - 1 in
  let doe := yoe * 365 + yoe / 4 - yoe / 100 + doy in
  era * 146097 + doe - 719468.

Section LocalTime.

(** Offset of the process's local time from UTC, in seconds. *)
Variable utc_offset : Z.

Definition local_days (t : Z) : Z := (t + utc_offset) / 86400.

(** [datetime.fromtimestamp(t)] restricted to its calendar date, and
    [datetime.fromtimestamp(t).date()]. *)
Definition fromtimestamp (t : Z) : date := civil_from_days (local_days t).

(** Day number of the Monday that starts ISO week 1 of year [y]. *)
Definition isoweek1monday (y : Z) : Z :=
  let firstday := days_from_civil y 1 1 in
  let firstweekday := (firstday + 3) mod 7 in
  let week1monday := firstday - firstweekday in
  if 3 <? firstweekday then week1monday + 7 else week1monday.

(** [datetime.fromtimestamp(t).isocalendar()[1]]: the ISO week number. *)
Definition isoweek (t : Z) : Z :=
  let today := local_days t in
  let y := year (civil_from_days today) in
  let week := (today - isoweek1monday y) / 7 in
  if week <? 0 then (today - isoweek1monday (y - 1)) / 7 + 1
  else if (52 <=? week) && (isoweek1monday (y + 1) <=? today) then 1
  else week + 1.

End LocalTime.

End Calendar.

(* ===================================================================== *)
(** * aggregator.py                                                       *)
(* ===================================================================== *)

Module Aggregator.

(** [collections.deque(maxlen=n)]: appending to a full deque drops the
    element at the left end. *)
Record deque : Type := mkDeque { maxlen : nat; items : list OHLCV }.

Definition deque_append (x : OHLCV) (d : deque) : deque :=
  if (maxlen d =? 0)%nat then d
  else if (length (items d) =? maxlen d)%nat
       then mkDeque (maxlen d) (tail (items d) ++ [x])
       else mkDeque (maxlen d) (items d ++ [x]).

(** Timeframe definitions: (bars_in_period, seconds_in_period); the bar
    count of ["1M"] is [None]. *)
Definition TIMEFRAMES : gmap string (option nat * Z) :=
  <["1m" := (Some 1%nat, 60)]> (
  <["5m" := (Some 5%nat, 300)]> (
  <["15m" := (Some 15%nat, 900)]> (
  <["30m" := (Some 30%nat, 1800)]> (
  <["1H" := (Some 60%nat, 3600)]> (
  <["4H" := (Some 240%nat, 14400)]> (
  <["1D" := (Some 1440%nat, 86400)]> (
  <["1W" := (Some 5%nat, 604800)]> (
  <["1M" := (None, 2592000)]> ∅)))))))).

(** [self.TIMEFRAMES[timeframe][0]] used as a number. *)
Definition bars_in_period (timeframe : string) : result nat :=
  tfd ← getitem timeframe TIMEFRAMES;
  match tfd.1 with
  | Some n => Ok n
  | None => Raise TypeError
  end.

Record TimeframeAggregator : Type := mkAggregator {
  _buffers : gmap string deque;
  _daily_bars : list OHLCV
}.

Definition __init__ : TimeframeAggregator :=
  mkAggregator
    (<["5m" := mkDeque 5 []]> (
     <["15m" := mkDeque 15 []]> (
     <["30m" := mkDeque 30 []]> (
     <["1H" := mkDeque 60 []]> (
     <["4H" := mkDeque 240 []]> (
     <["1D" := mkDeque 1440 []]> (
     <["1W" := mkDeque 5 []]> (
     <["1M" := mkDeque 31 []]> ∅))))))))
    [].

(** The [OHLCV(time=bars[0].time, ..., volume=sum(...))] expression that
    every aggregation path evaluates on its list of bars. *)
Definition combine (bars : list OHLCV) : result OHLCV :=
  b0 ← first bars;
  hi ← py_max (high <$> bars);
  lo ← py_min (low <$> bars);
  bl ← final bars;
  Ok (mkOHLCV (time b0) (open b0) hi lo (close bl) (py_sum (volume <$> bars))).

Definition _aggregate_bars (bars : list OHLCV) (timeframe : string)
  : result OHLCV :=
  match bars with
  | [] => Raise (ValueError ("Cannot aggregate empty bar list for " +:+ timeframe))
  | _ => combine bars
  end.

(** A [for] loop whose body may raise. *)
Fixpoint foldM {A B : Type} (f : B -> A -> result B) (acc : B) (xs : list A)
  : result B :=
  match xs with
  | [] => Ok acc
  | x :: xs' => acc' ← f acc x; foldM f acc' xs'
  end.

(** [groups.setdefault(k, []).append(bar)] on a dict kept in insertion
    order. *)
Fixpoint group_append {K : Type} `{EqDecision K} (k : K) (bar : OHLCV)
    (groups : list (K * list OHLCV)) : list (K * list OHLCV) :=
  match groups with
  | [] => [(k, [bar])]
  | (k', bars) :: rest =>
      if decide (k = k') then (k', bars ++ [bar]) :: rest
      else (k', bars) :: group_append k bar rest
  end.

(** [sorted(groups.items())] for a dict (keys are distinct, so the order
    of the keys decides). *)
Fixpoint insert_by_key {K V : Type} (ltb : K -> K -> bool) (kv : K * V)
    (l : list (K * V)) : list (K * V) :=
  match l with
  | [] => [kv]
  | kv' :: rest =>
      if ltb kv'.1 kv.1 then kv' :: insert_by_key ltb kv rest
      else kv :: kv' :: rest
  end.

Definition sorted_items {K V : Type} (ltb : K -> K -> bool)
    (l : list (K * V)) : list (K * V) :=
  foldr (insert_by_key ltb) [] l.

Definition date_ltb (a b : Calendar.date) : bool :=
  (Calendar.year a <? Calendar.year b)
  || ((Calendar.year a =? Calendar.year b)
      && ((Calendar.month a <? Calendar.month b)
          || ((Calendar.month a =? Calendar.month b)
              && (Calendar.day a <? Calendar.day b)))).

Definition week_key_ltb (a b : Z * Z) : bool :=
  (a.1 <? b.1) || ((a.1 =? b.1) && (a.2 <? b.2)).

Section LocalTime.

Variable utc_offset : Z.

Definition same_month (a b : OHLCV) : bool :=
  let da := Calendar.fromtimestamp utc_offset (time a) in
  let db := Calendar.fromtimestamp utc_offset (time b) in
  (Calendar.month da =? Calendar.month db)
  && (Calendar.year da =? Calendar.year db).

(** The loop of [_aggregate_monthly] over [reversed(daily_bars)]: append
    while the month and year match those of the latest bar, [break] at the
    first mismatch. *)
Fixpoint month_scan (latest_bar : OHLCV) (reversed_bars : list OHLCV)
    (current_month_bars : list OHLCV) : list OHLCV :=
  match reversed_bars with
  | [] => current_month_bars
  | bar :: rest =>
      if same_month bar latest_bar
      then month_scan latest_bar rest (current_month_bars ++ [bar])
      else current_month_bars
  end.

Definition _aggregate_monthly (daily_bars : list OHLCV)
  : result (option OHLCV) :=
  match daily_bars with
  | [] => Ok None
  | _ =>
      latest_bar ← final daily_bars;
      let current_month_bars := month_scan latest_bar (reverse daily_bars) [] in
      match current_month_bars with
      | [] => Ok None
      | _ =>
          monthly ← _aggregate_bars (reverse current_month_bars) "1M";
          Ok (Some monthly)
      end
  end.

(** First loop of [add_1m_bar]: append the bar to every buffer except the
    ["1W"] and ["1M"] ones. *)
Definition append_all (bar : OHLCV) (buffers : gmap string deque)
  : gmap string deque :=
  map_imap (fun timeframe d =>
    Some (if bool_decide (timeframe <> "1W") && bool_decide (timeframe <> "1M")
          then deque_append bar d else d)) buffers.

(** Body of the intraday loop of [add_1m_bar]. *)
Definition intraday_step (buffers : gmap string deque)
    (res : gmap string (list OHLCV)) (timeframe : string)
  : result (gmap string (list OHLCV)) :=
  buf ← getitem timeframe buffers;
  n ← bars_in_period timeframe;
  if (n <=? length (items buf))%nat then
    aggregated ← _aggregate_bars (items buf) timeframe;
    Ok (<[timeframe := [aggregated]]> res)
  else Ok res.

(** [add_1m_bar] returns the engine after the call together with the
    result dict; a call that raises returns the exception alone. *)
Definition add_1m_bar (bar : OHLCV) (self : TimeframeAggregator)
  : result (TimeframeAggregator * gmap string (list OHLCV)) :=
  let buffers := append_all bar (_buffers self) in
  let res : gmap string (list OHLCV) := {["1m" := [bar]]} in
  res ← foldM (intraday_step buffers) res ["5m"; "15m"; "30m"; "1H"; "4H"];
  buf ← getitem "1D" buffers;
  n ← bars_in_period "1D";
  if (n <=? length (items buf))%nat then
    daily_bar ← _aggregate_bars (items buf) "1D";
    let res := <["1D" := [daily_bar]]> res in
    let daily_bars := _daily_bars self ++ [daily_bar] in
    res ← (if (5 <=? length daily_bars)%nat then
             weekly_bar ← _aggregate_bars (lastn 5 daily_bars) "1W";
             Ok (<["1W" := [weekly_bar]]> res)
           else Ok res);
    monthly_bar ← _aggregate_monthly daily_bars;
    let res := match monthly_bar with
               | Some monthly => <["1M" := [monthly]]> res
               | None => res
               end in
    Ok (mkAggregator buffers daily_bars, res)
  else Ok (mkAggregator buffers (_daily_bars self), res).


Definition _aggregate_to_daily (bars_1m : list OHLCV) : result (list OHLCV) :=
  let daily_groups :=
    fold_left (fun groups bar =>
                 group_append (Calendar.fromtimestamp utc_offset (time bar)) bar groups)
              bars_1m [] in
  foldM (fun daily_bars group => bar ← combine group.2; Ok (daily_bars ++ [bar]))
        [] (sorted_items date_ltb daily_groups).

Definition _aggregate_to_weekly (daily_bars : list OHLCV) : result (list OHLCV) :=
  let weekly_groups :=
    fold_left (fun groups bar =>
                 let week_key :=
                   (Calendar.year (Calendar.fromtimestamp utc_offset (time bar)),
                    Calendar.isoweek utc_offset (time bar)) in
                 group_append week_key bar groups)
              daily_bars [] in
  foldM (fun weekly_bars group => bar ← combine group.2; Ok (weekly_bars ++ [bar]))
        [] (sorted_items week_key_ltb weekly_groups).

(** Body of the chunk loop of [aggregate_historical_1m_to_timeframe]. *)
Definition chunk_step (bars_1m : list OHLCV) (bars_needed : nat)
    (aggregated_bars : list OHLCV) (i : nat) : result (list OHLCV) :=
  let chunk := take bars_needed (drop i bars_1m) in
  if (length chunk =? bars_needed)%nat then
    bar ← combine chunk; Ok (aggregated_bars ++ [bar])
  else Ok aggregated_bars.

Definition aggregate_historical_1m_to_timeframe (bars_1m : list OHLCV)
    (target_timeframe : string) : result (list OHLCV) :=
  if bool_decide (target_timeframe = "1m") then Ok bars_1m
  else
    match TIMEFRAMES !! target_timeframe with
    | None => Raise (ValueError ("Unknown timeframe: " +:+ target_timeframe))
    | Some tfd =>
        match tfd.1 with
        | None =>
            Raise (ValueError ("Cannot aggregate to " +:+ target_timeframe
                               +:+ " (variable bars)"))
        | Some bars_needed =>
            if (bars_needed =? 5)%nat then
              daily_bars ← _aggregate_to_daily bars_1m;
              _aggregate_to_weekly daily_bars
            else
              indices ← range_step (length bars_1m) bars_needed;
              foldM (chunk_step bars_1m bars_needed) [] indices
        end
    end.

End LocalTime.

End Aggregator.

(* ===================================================================== *)
(** * rate_limiter.py                                                     *)
(* ===================================================================== *)

Module RateLimiter.

Local Open Scope Q_scope.

(** The clock the limiter reads.  [time.time()] returns [now];
    [time.sleep(d)] advances the clock by [d] and is recorded in [slept];
    time passing between two calls is [advance]. *)
Record world : Type := mkWorld { now : Q; slept : list Q }.

Definition time_time (w : world) : Q := now w.

Definition time_sleep (d : Q) (w : world) : world :=
  mkWorld (now w + d) (slept w ++ [d]).

Definition advance (d : Q) (w : world) : world :=
  mkWorld (now w + d) (slept w).

(** True division [a / b]. *)
Definition truediv (a b : Q) : result Q :=
  if Qeq_bool b 0 then Raise ZeroDivisionError else Ok (a / b).

Record RateLimiter : Type := mkLimiter {
  rate_limit : Z;
  period : Z;
  tokens : Q;
  last_update : Q
}.

Definition __init__ (rate_limit period : Z) (w : world) : RateLimiter :=
  mkLimiter rate_limit period (inject_Z rate_limit) (time_time w).

Definition wait_if_needed (self : RateLimiter) (w : world)
  : result (RateLimiter * world) :=
  let now := time_time w in
  let elapsed := now - last_update self in
  rate ← truediv (inject_Z (rate_limit self)) (inject_Z (period self));
  let tokens_to_add := elapsed * rate in
  let tokens1 := Qmin (inject_Z (rate_limit self)) (tokens self + tokens_to_add) in
  if Qlt_le_dec tokens1 1 then
    inv ← truediv 1 (inject_Z (rate_limit self));
    let wait_time := inv * inject_Z (period self) in
    let w' := time_sleep wait_time w in
    let tokens2 := inject_Z (rate_limit self) in
    Ok (mkLimiter (rate_limit self) (period self) (tokens2 - 1) (time_time w'), w')
  else
    Ok (mkLimiter (rate_limit self) (period self) (tokens1 - 1) now, w).

Definition get_available_tokens (self : RateLimiter) (w : world) : result Q :=
  let now := time_time w in
  let elapsed := now - last_update self in
  rate ← truediv (inject_Z (rate_limit self)) (inject_Z (period self));
  let tokens_to_add := elapsed * rate in
  Ok (Qmin (inject_Z (rate_limit self)) (tokens self + tokens_to_add)).

Definition reset (self : RateLimiter) (w : world) : RateLimiter :=
  mkLimiter (rate_limit self) (period self) (inject_Z (rate_limit self))
            (time_time w).

(** [n] calls of [wait_if_needed] in a row, the clock moving only when a
    call sleeps. *)
Fixpoint acquire_n (n : nat) (self : RateLimiter) (w : world)
  : result (RateLimiter * world) :=
  match n with
  | O => Ok (self, w)
  | S n' => '(self', w') ← wait_if_needed self w; acquire_n n' self' w'
  end.

End RateLimiter.

(* ===================================================================== *)
(** * cache.py: the data cache                                            *)
(* ===================================================================== *)

Module Cache.

Record DataCache : Type := mkCache {
  _cache : gmap (string * string) (list OHLCV);
  _cache_hits : Z;
  _cache_misses : Z
}.

Definition __init__ : DataCache := mkCache ∅ 0 0.

Definition get (symbol timeframe : string) (self : DataCache)
  : DataCache * option (list OHLCV) :=
  let key := (symbol, timeframe) in
  match _cache self !! key with
  | Some bars =>
      (mkCache (_cache self) (_cache_hits self + 1) (_cache_misses self),
       Some bars)
  | None =>
      (mkCache (_cache self) (_cache_hits self) (_cache_misses self + 1),
       None)
  end.

Definition set (symbol timeframe : string) (bars : list OHLCV)
    (self : DataCache) : DataCache :=
  let key := (symbol, timeframe) in
  mkCache (<[key := bars]> (_cache self)) (_cache_hits self)
          (_cache_misses self).

Definition has (symbol timeframe : string) (self : DataCache) : bool :=
  bool_decide (is_Some (_cache self !! (symbol, timeframe))).

Definition clear (self : DataCache) : DataCache :=
  mkCache ∅ (_cache_hits self) (_cache_misses self).

(** [round(x, 2)]: the nearest multiple of 1/100, a tie going to the even
    one. *)
Definition round2 (x : Q) : Q :=
  let n := (x * 100)%Q in
  let f := Qfloor n in
  let r := (n - inject_Z f)%Q in
  let k := match (r ?= 1 # 2)%Q with
           | Lt => f
           | Gt => f + 1
           | Eq => if Z.even f then f else f + 1
           end in
  (inject_Z k / 100)%Q.

Record stats : Type := mkStats {
  cache_hits : Z;
  cache_misses : Z;
  total_keys : nat;
  hit_rate_percent : Q
}.

(** The local variable [hit_rate] of [get_stats], before rounding. *)
Definition hit_rate (self : DataCache) : Q :=
  let total_requests := _cache_hits self + _cache_misses self in
  if 0 <? total_requests
  then (inject_Z (_cache_hits self) / inject_Z total_requests * 100)%Q
  else 0%Q.

Definition get_stats (self : DataCache) : stats :=
  mkStats (_cache_hits self) (_cache_misses self) (size (_cache self))
          (round2 (hit_rate self)).

End Cache.

(* ===================================================================== *)
(** * websocket_client.py                                                 *)
(* ===================================================================== *)

Module WsClient.

Local Open Scope nat_scope.

(** Directives sent upstream; the JSON payloads are kept as their
    distinguishing fields. *)
Inductive message : Type :=
| Subscribe (api_key code : string)
| Unsubscribe (api_key code : string)
| Ping.

(** An open connection, as far as the client can observe it: the frames
    it has sent on it. *)
Record WebSocket : Type := mkWebSocket { sent : list message }.

Record client : Type := mkClient {
  api_key : string;
  symbol : string;
  aggregator : Aggregator.TimeframeAggregator;
  websocket : option WebSocket;
  is_connected : bool;
  max_reconnect_attempts : nat;
  base_reconnect_delay : nat;
  reconnect_attempts : nat
}.

Definition set_symbol (s : string) (c : client) : client :=
  mkClient (api_key c) s (aggregator c) (websocket c) (is_connected c)
           (max_reconnect_attempts c) (base_reconnect_delay c)
           (reconnect_attempts c).

Definition set_aggregator (a : Aggregator.TimeframeAggregator) (c : client)
  : client :=
  mkClient (api_key c) (symbol c) a (websocket c) (is_connected c)
           (max_reconnect_attempts c) (base_reconnect_delay c)
           (reconnect_attempts c).

Definition set_websocket (ws : option WebSocket) (c : client) : client :=
  mkClient (api_key c) (symbol c) (aggregator c) ws (is_connected c)
           (max_reconnect_attempts c) (base_reconnect_delay c)
           (reconnect_attempts c).

Definition set_is_connected (b : bool) (c : client) : client :=
  mkClient (api_key c) (symbol c) (aggregator c) (websocket c) b
           (max_reconnect_attempts c) (base_reconnect_delay c)
           (reconnect_attempts c).

Definition set_reconnect_attempts (n : nat) (c : client) : client :=
  mkClient (api_key c) (symbol c) (aggregator c) (websocket c)
           (is_connected c) (max_reconnect_attempts c)
           (base_reconnect_delay c) n.

Definition __init__ (api_key symbol : string) : client :=
  mkClient api_key symbol Aggregator.__init__ None false 5 1 0.

(** Methods of the client: a state transformer that may raise, keeping
    the state reached when it does. *)
Definition M (A : Type) : Type := client -> client * result A.

#[global] Instance M_ret : MRet M := fun A a c => (c, Ok a).

#[global] Instance M_bind : MBind M :=
  fun A B f m c =>
    match m c with
    | (c', Ok a) => f a c'
    | (c', Raise e) => (c', Raise e)
    end.

Definition raise {A : Type} (e : exn) : M A := fun c => (c, Raise e).

Definition modify (f : client -> client) : M unit := fun c => (f c, Ok tt).

(** [await self.websocket.send(msg)]; the transport accepts every frame
    (a send that fails in the transport is outside the model). *)
Definition send (msg : message) : M unit :=
  fun c =>
    match websocket c with
    | Some ws => (set_websocket (Some (mkWebSocket (sent ws ++ [msg]))) c, Ok tt)
    | None => (c, Raise AttributeError)
    end.

(** [symbol or self.symbol]: an absent or empty argument falls back to
    the tracked symbol. *)
Definition _subscribe (symbol_arg : option string) : M unit :=
  fun c =>
    let target_symbol :=
      match symbol_arg with
      | Some s => if bool_decide (s = "") then symbol c else s
      | None => symbol c
      end in
    send (Subscribe (api_key c) target_symbol) c.

Definition _unsubscribe (symbol_arg : string) : M unit :=
  fun c => send (Unsubscribe (api_key c) symbol_arg) c.

Definition switch_symbol (new_symbol : string) : M unit :=
  fun c =>
    if negb (is_connected c) || negb (bool_decide (is_Some (websocket c)))
    then raise (RuntimeError "WebSocket not connected") c
    else if bool_decide (new_symbol = symbol c) then (mret tt : M unit) c
    else
      (_ ← _unsubscribe (symbol c);
       _ ← modify (set_symbol new_symbol);
       _ ← _subscribe (Some new_symbol);
       modify (set_aggregator Aggregator.__init__) : M unit) c.

Definition close : M unit :=
  fun c =>
    match websocket c with
    | Some _ => (set_is_connected false c, Ok tt)
    | None => (c, Ok tt)
    end.

(** What the environment does to one pass of the loop of [connect]:
    [websockets.connect] raises [ConnectionClosed], raises another
    exception, or returns a connection; in the last case the subscription
    and the message loop run, leave the aggregation engine in some state,
    and end by [ConnectionClosed], by another exception, or by the message
    loop returning. *)
Inductive session_end : Type := SessionClosed | SessionError | SessionReturned.

Inductive attempt : Type :=
| ConnectClosed
| ConnectError
| Connected (agg : Aggregator.TimeframeAggregator) (e : session_end).

(** What the loop does that an observer sees: a call of
    [websockets.connect] (with its success) and a backoff sleep. *)
Inductive event : Type :=
| EvConnect (ok : bool)
| EvSleep (seconds : nat).

(** The [except ConnectionClosed] handler. *)
Definition on_connection_closed (c : client) : client * list event :=
  let c1 := set_is_connected false c in
  let c2 := set_reconnect_attempts (reconnect_attempts c1 + 1) c1 in
  if reconnect_attempts c2 <? max_reconnect_attempts c2 then
    let delay := base_reconnect_delay c2 * 2 ^ (reconnect_attempts c2 - 1) in
    (c2, [EvSleep delay])
  else (c2, []).

(** One pass of the [while] body; the boolean is [true] on [break]. *)
Definition connect_iter (o : attempt) (c : client)
  : client * list event * bool :=
  match o with
  | ConnectClosed =>
      let '(c', evs) := on_connection_closed c in
      (c', EvConnect false :: evs, false)
  | ConnectError => (set_is_connected false c, [EvConnect false], true)
  | Connected agg e =>
      let c1 := set_websocket (Some (mkWebSocket [])) c in
      let c2 := set_is_connected true c1 in
      let c3 := set_reconnect_attempts 0 c2 in
      let c4 := (_subscribe None c3).1 in
      let c5 := set_aggregator agg c4 in
      match e with
      | SessionClosed =>
          let '(c', evs) := on_connection_closed c5 in
          (c', EvConnect true :: evs, false)
      | SessionError => (set_is_connected false c5, [EvConnect true], true)
      | SessionReturned => (c5, [EvConnect true], false)
      end
  end.

(** [connect] against a finite script of environment behaviours.  The
    last component is [true] when [connect] has returned and [false] when
    the script ran out with the loop still going. *)
Fixpoint connect (script : list attempt) (c : client)
  : client * list event * bool :=
  if reconnect_attempts c <? max_reconnect_attempts c then
    match script with
    | [] => (c, [], false)
    | o :: rest =>
        let '(c1, evs, brk) := connect_iter o c in
        if brk then (c1, evs, true)
        else
          let '(c2, evs', returned) := connect rest c1 in
          (c2, evs ++ evs', returned)
    end
  else (c, [], true).

(** The [websockets.connect] calls of a trace, each with its success. *)
Definition connects (tr : list event) : list bool :=
  omap (fun ev => match ev with EvConnect ok => Some ok | EvSleep _ => None end) tr.

Definition sleeps (tr : list event) : list nat :=
  omap (fun ev => match ev with EvSleep d => Some d | EvConnect _ => None end) tr.

End WsClient.

(* ===================================================================== *)
(** * Vocabulary of the specification                                     *)
(* ===================================================================== *)

Module Spec.

(** [m] is the maximum (minimum) of the numbers [xs]. *)
Definition is_max_of (m : Z) (xs : list Z) : Prop :=
  m ∈ xs /\ forall x, x ∈ xs -> x <= m.

Definition is_min_of (m : Z) (xs : list Z) : Prop :=
  m ∈ xs /\ forall x, x ∈ xs -> m <= x.

(** The sum of the numbers [xs]. *)
Definition sum_of (xs : list Z) : Z := foldr Z.add 0 xs.

(** [r] is the combination of the non-empty bar sequence [bars] by the
    combine rule of the specification. *)
Definition is_combine_of (r : OHLCV) (bars : list OHLCV) : Prop :=
  exists first_bar last_bar,
    head bars = Some first_bar /\ last bars = Some last_bar /\
    time r = time first_bar /\
    open r = open first_bar /\
    is_max_of (high r) (high <$> bars) /\
    is_min_of (low r) (low <$> bars) /\
    close r = close last_bar /\
    volume r = sum_of (volume <$> bars).

(** The sliding-window timeframes with their window sizes. *)
Definition windows : list (string * nat) :=
  [("5m", 5%nat); ("15m", 15%nat); ("30m", 30%nat); ("1H", 60%nat);
   ("4H", 240%nat); ("1D", 1440%nat)].


End Spec.

(* ===================================================================== *)
(** * State invariants of the live engine                                 *)
(* ===================================================================== *)

Module Invariants.

Import Aggregator.

(** The buffers of an engine that started empty and has been fed the
    1-minute bars [hist]: every window holds the last [maxlen] bars; the
    ["1W"] and ["1M"] deques are never written. *)
Definition buffers_of (hist : list OHLCV) : gmap string deque :=
  <["5m" := mkDeque 5 (lastn 5 hist)]> (
  <["15m" := mkDeque 15 (lastn 15 hist)]> (
  <["30m" := mkDeque 30 (lastn 30 hist)]> (
  <["1H" := mkDeque 60 (lastn 60 hist)]> (
  <["4H" := mkDeque 240 (lastn 240 hist)]> (
  <["1D" := mkDeque 1440 (lastn 1440 hist)]> (
  <["1W" := mkDeque 5 []]> (
  <["1M" := mkDeque 31 []]> ∅))))))).

(** The combination of a sequence known to be non-empty. *)
Definition combined (bars : list OHLCV) : OHLCV :=
  match combine bars with
  | Ok r => r
  | Raise _ => mkOHLCV 0 0 0 0 0 0
  end.



(** A limiter for 25 requests per 60 seconds, last updated at the
    current clock reading. *)
Definition fresh_25_60 (self : RateLimiter.RateLimiter)
    (w : RateLimiter.world) : Prop :=
  RateLimiter.rate_limit self = 25 /\
  RateLimiter.period self = 60 /\
  RateLimiter.last_update self = RateLimiter.now w.

(** Class invariant of the ingestion client: the connected flag is only
    set while a connection object is held. *)
Definition client_inv (c : WsClient.client) : Prop :=
  WsClient.is_connected c = true -> is_Some (WsClient.websocket c).

(** No connection attempt follows [m] consecutive failed ones: [run]
    counts the failed attempts since the last successful one. *)
Fixpoint no_attempt_after (m run : nat) (attempts : list bool) : bool :=
  match attempts with
  | [] => true
  | ok :: rest =>
      if (run =? m)%nat then false
      else no_attempt_after m (if ok then 0%nat else S run) rest
  end.

End Invariants.

(* ===================================================================== *)
(** * Sample inputs                                                       *)
(* ===================================================================== *)

Module Samples.

(** 2024-01-30, 2024-01-31, 2024-02-01 and 2024-02-02 at 00:00 UTC. *)
Definition jan30 : Z := 1706572800.

(** The [i]-th 1-minute bar of 2024-01-30 (UTC). *)
Definition minute_bar (i : Z) : OHLCV :=
  mkOHLCV (jan30 + 60 * i) (100 + i) (110 + i) (90 - i) (105 + i) (10 + i).

Definition minute_bars (n : nat) : list OHLCV :=
  (fun k => minute_bar (Z.of_nat k)) <$> seq 1 n.

(** A daily bar that starts at [t]. *)
Definition daily_bar (t price : Z) : OHLCV :=
  mkOHLCV t price (price + 5) (price - 5) (price + 1) 1000.

(** An engine whose windows have seen the first [n] sample bars and
    whose daily-bar list is [daily_bars]. *)
Definition engine_with (n : nat) (daily_bars : list OHLCV)
  : Aggregator.TimeframeAggregator :=
  Aggregator.mkAggregator (Invariants.buffers_of (minute_bars n)) daily_bars.

(** Whether a call returned. *)
Definition returned {A : Type} (r : result A) : bool :=
  match r with Ok _ => true | Raise _ => false end.

End Samples.

(* ===================================================================== *)
(** * cache.py: dictionaries of bars                                      *)
(* ===================================================================== *)

Module BarDict.

(** [OHLCV.to_dict]; the values of a bar dictionary are numbers. *)
Definition to_dict (self : OHLCV) : gmap string Z :=
  <["time" := time self]> (
  <["open" := open self]> (
  <["high" := high self]> (
  <["low" := low self]> (
  <["close" := close self]> (
  <["volume" := volume self]> ∅))))).

(** [OHLCV.from_dict], and the [OHLCV(time=bar["time"], ...)] expression
    of [_parse_response] and [_process_bars]: the keys are read in the
    order time, open, high, low, close, volume, and the first missing one
    raises [KeyError]. *)
Definition from_dict (data : gmap string Z) : result OHLCV :=
  t ← getitem "time" data;
  o ← getitem "open" data;
  h ← getitem "high" data;
  l ← getitem "low" data;
  c ← getitem "close" data;
  v ← getitem "volume" data;
  Ok (mkOHLCV t o h l c v).

(** A list comprehension whose element expression may raise: the first
    exception ends it. *)
Fixpoint mapM {A B : Type} (f : A -> result B) (xs : list A) : result (list B) :=
  match xs with
  | [] => Ok []
  | x :: rest => y ← f x; ys ← mapM f rest; Ok (y :: ys)
  end.

End BarDict.

(* ===================================================================== *)
(** * Vocabulary of the further properties                                *)
(* ===================================================================== *)

Module Props.

(** A bar whose low and high enclose its open and close and whose volume
    is not negative. *)
Definition well_formed (bar : OHLCV) : Prop :=
  low bar <= open bar /\ low bar <= close bar /\
  open bar <= high bar /\ close bar <= high bar /\
  0 <= volume bar.

(** The traded volume of a list of bars. *)
Definition total_volume (bars : list OHLCV) : Z :=
  Spec.sum_of (volume <$> bars).

(** The nine timeframe identifiers, in the order in which [add_1m_bar]
    inserts them into its result. *)
Definition timeframes : list string :=
  ["1m"; "5m"; "15m"; "30m"; "1H"; "4H"; "1D"; "1W"; "1M"].

(** The batch targets that take the chunk loop, with their chunk sizes. *)
Definition chunk_targets : list (string * nat) :=
  [("15m", 15%nat); ("30m", 30%nat); ("1H", 60%nat); ("4H", 240%nat);
   ("1D", 1440%nat)].





(** A limiter for [n] requests per [p] seconds, last updated at the
    current clock reading. *)
Definition fresh (n p : Z) (self : RateLimiter.RateLimiter)
    (w : RateLimiter.world) : Prop :=
  RateLimiter.rate_limit self = n /\
  RateLimiter.period self = p /\
  RateLimiter.last_update self = RateLimiter.now w.

(** Operations on the data cache, and a run of them. *)
Inductive cache_op : Type :=
| OpGet (symbol timeframe : string)
| OpSet (symbol timeframe : string) (bars : list OHLCV)
| OpHas (symbol timeframe : string)
| OpClear
| OpStats.

Definition run_op (op : cache_op) (self : Cache.DataCache) : Cache.DataCache :=
  match op with
  | OpGet s t => (Cache.get s t self).1
  | OpSet s t bars => Cache.set s t bars self
  | OpHas _ _ => self
  | OpClear => Cache.clear self
  | OpStats => self
  end.

Definition run_ops (ops : list cache_op) (self : Cache.DataCache)
  : Cache.DataCache :=
  fold_left (fun c op => run_op op c) ops self.

Definition is_get (op : cache_op) : bool :=
  match op with OpGet _ _ => true | _ => false end.

End Props.

(* ===================================================================== *)
(** * websocket_client.py: the message loop                               *)
(* ===================================================================== *)

Module Ingestion.

Import WsClient.

(** A text frame of the upstream socket, as far as the message loop
    tells frames apart: the text "pong"; a text that [json.loads]
    rejects; a JSON object with a "message" key; a JSON object without
    one, with the value of its "series" key when it has one.  A series
    is a list of bar dictionaries, whose values are numbers. *)
Inductive frame : Type :=
| Pong
| NotJson
| Status
| Data (series : option (list (gmap string Z))).

(** [aggregated.items()]: the entries of the dict returned by
    [add_1m_bar] in insertion order, which is the order in which
    [add_1m_bar] assigns its keys. *)
Definition items (aggregated : gmap string (list OHLCV))
  : list (string * list OHLCV) :=
  omap (fun timeframe => pair timeframe <$> aggregated !! timeframe)
       ["1m"; "5m"; "15m"; "30m"; "1H"; "4H"; "1D"; "1W"; "1M"].

(** [self.websocket and self.is_connected], then [send("ping")] inside a
    [try] that swallows every exception. *)
Definition send_ping : M unit :=
  fun c =>
    match websocket c with
    | Some _ =>
        if is_connected c then
          match send Ping c with
          | (c', _) => (c', Ok tt)
          end
        else (c, Ok tt)
    | None => (c, Ok tt)
    end.

Section LocalTime.

Variable utc_offset : Z.

(** Whether a callback is registered in [self.on_bar_update].  The calls
    of a registered callback are recorded, with their arguments; it
    returns normally (a callback that raises is outside the model). *)
Variable on_bar_update : bool.

(** [self.aggregator.add_1m_bar(bar)] on the engine object.  The method
    appends to the buffers before anything in it can raise, and nothing
    raises after the daily-bar list is appended to, so the engine left by
    a call that raises has the new buffers and the old daily-bar list. *)
Definition add_1m_bar_in_place (bar : OHLCV)
    (agg : Aggregator.TimeframeAggregator)
  : Aggregator.TimeframeAggregator * result (gmap string (list OHLCV)) :=
  match Aggregator.add_1m_bar utc_offset bar agg with
  | Ok (agg', aggregated) => (agg', Ok aggregated)
  | Raise e =>
      (Aggregator.mkAggregator
         (Aggregator.append_all bar (Aggregator._buffers agg))
         (Aggregator._daily_bars agg),
       Raise e)
  end.

(** The [for bar in bars] loop of [_process_bars]. *)
Fixpoint feed_bars (bars : list OHLCV) (c : client)
  : client * list (string * list OHLCV) * result unit :=
  match bars with
  | [] => (c, [], Ok tt)
  | bar :: rest =>
      match add_1m_bar_in_place bar (aggregator c) with
      | (agg, Raise e) => (set_aggregator agg c, [], Raise e)
      | (agg, Ok aggregated) =>
          let calls :=
            if on_bar_update
            then filter (fun kv => kv.2 <> []) (items aggregated)
            else [] in
          let '(c', calls', r) := feed_bars rest (set_aggregator agg c) in
          (c', calls ++ calls', r)
      end
  end.

(** [_process_bars]: all the dictionaries are converted before the first
    bar is fed. *)
Definition _process_bars (bars_data : list (gmap string Z)) (c : client)
  : client * list (string * list OHLCV) * result unit :=
  match BarDict.mapM BarDict.from_dict bars_data with
  | Raise e => (c, [], Raise e)
  | Ok bars => feed_bars bars c
  end.

(** The body of the message loop for one frame; whatever is raised in it
    is logged and dropped. *)
Definition on_message (message : frame) (c : client)
  : client * list (string * list OHLCV) :=
  match message with
  | Pong | NotJson | Status => (c, [])
  | Data None => (c, [])
  | Data (Some []) => (c, [])
  | Data (Some series) =>
      let '(c', calls, _) := _process_bars series c in (c', calls)
  end.


End LocalTime.

(** The bars of a frame that reach the engine: those of a data frame all
    of whose dictionaries convert. *)
Definition frame_bars (message : frame) : list OHLCV :=
  match message with
  | Data (Some series) =>
      match BarDict.mapM BarDict.from_dict series with
      | Ok bars => bars
      | Raise _ => []
      end
  | _ => []
  end.



End Ingestion.

(* ===================================================================== *)
(** * insight_api.py                                                      *)
(* ===================================================================== *)

Module Api.

(** What [fetch_historical_data] can raise: an exception of the program,
    or one of the [requests] library (raised by [requests.get],
    [raise_for_status] or [response.json]), for which only its message
    and whether its class derives from [ValueError] matter to the
    callers. *)
Inductive error : Type :=
| PyError (e : exn)
| RequestError (value_error : bool) (msg : string).

Inductive outcome (A : Type) : Type :=
| Returns (a : A)
| Raises (e : error).

Arguments Returns {A} a.
Arguments Raises {A} e.

(** What the upstream service does with a request: the request fails, or
    a JSON object comes back, of which the value of the "series" key (if
    any) is kept. *)
Inductive response : Type :=
| Fails (value_error : bool) (msg : string)
| Json (series : option (list (gmap string Z))).

(** The parameters of a [requests.get] call. *)
Record request : Type := mkRequest {
  req_symbol : string;
  bar_type : string;
  bar_interval : Z;
  data_points : Z
}.

Definition TIMEFRAME_MAP : gmap string (string * Z) :=
  <["1m" := ("minute", 1)]> (
  <["5m" := ("minute", 5)]> (
  <["15m" := ("minute", 15)]> (
  <["30m" := ("minute", 30)]> (
  <["1H" := ("minute", 60)]> (
  <["4H" := ("minute", 240)]> (
  <["1D" := ("day", 1)]> (
  <["1W" := ("day", 7)]> (
  <["1M" := ("day", 30)]> ∅)))))))).

(** The client with what it shares with the rest of the program: the
    cache singleton, its rate limiter, the clock, and the requests made
    so far. *)
Record InsightSentryAPI : Type := mkApi {
  cache : Cache.DataCache;
  rate_limiter : RateLimiter.RateLimiter;
  clock : RateLimiter.world;
  requested : list request
}.

Definition __init__ (cache : Cache.DataCache) (clock : RateLimiter.world)
  : InsightSentryAPI :=
  mkApi cache (RateLimiter.__init__ 25 60 clock) clock [].

(** [xs[-bars:]] for an integer [bars]: the last [bars] elements when
    [bars] is positive (all of them when there are fewer), the whole list
    when it is 0, the list without its first [-bars] elements when it is
    negative. *)
Definition last_bars {A : Type} (bars : Z) (xs : list A) : list A :=
  if 0 <? bars then drop (length xs - Z.to_nat bars) xs
  else drop (Z.to_nat (- bars)) xs.

Definition _parse_response (data : option (list (gmap string Z)))
  : result (list OHLCV) :=
  match data with
  | None => Raise (ValueError "Invalid response format: 'series' key missing")
  | Some series => BarDict.mapM BarDict.from_dict series
  end.

(** The limiter left by a call of [wait_if_needed] that raised: the
    division of the refill raises before anything is assigned, the
    division of the wait time after [tokens] and [last_update] were. *)
Definition limiter_after_raise (self : RateLimiter.RateLimiter)
    (w : RateLimiter.world) : RateLimiter.RateLimiter :=
  match RateLimiter.get_available_tokens self w with
  | Ok available =>
      RateLimiter.mkLimiter (RateLimiter.rate_limit self)
        (RateLimiter.period self) available (RateLimiter.time_time w)
  | Raise _ => self
  end.

Definition fetch_historical_data (symbol timeframe : string) (bars : Z)
    (upstream : response) (self : InsightSentryAPI)
  : InsightSentryAPI * outcome (list OHLCV) :=
  match TIMEFRAME_MAP !! timeframe with
  | None =>
      (self, Raises (PyError (ValueError ("Invalid timeframe: " +:+ timeframe))))
  | Some (bar_type, bar_interval) =>
      let '(cache1, cached) := Cache.get symbol timeframe (cache self) in
      match cached with
      | Some cached =>
          (mkApi cache1 (rate_limiter self) (clock self) (requested self),
           Returns (last_bars bars cached))
      | None =>
          match RateLimiter.wait_if_needed (rate_limiter self) (clock self) with
          | Raise e =>
              (mkApi cache1
                     (limiter_after_raise (rate_limiter self) (clock self))
                     (clock self) (requested self),
               Raises (PyError e))
          | Ok (limiter1, clock1) =>
              let requested1 :=
                requested self
                ++ [mkRequest symbol bar_type bar_interval bars] in
              match upstream with
              | Fails value_error msg =>
                  (mkApi cache1 limiter1 clock1 requested1,
                   Raises (RequestError value_error msg))
              | Json data =>
                  match _parse_response data with
                  | Raise e =>
                      (mkApi cache1 limiter1 clock1 requested1,
                       Raises (PyError e))
                  | Ok ohlcv_bars =>
                      (mkApi (Cache.set symbol timeframe ohlcv_bars cache1)
                             limiter1 clock1 requested1,
                       Returns ohlcv_bars)
                  end
              end
          end
      end
  end.

End Api.

(* ===================================================================== *)
(** * main.py: the chart history endpoint                                 *)
(* ===================================================================== *)

Module Server.

(** The answer of the endpoint: the response model, or the status and
    detail of the [HTTPException] (the detail of a 500 is not kept). *)
Inductive http_response : Type :=
| Ok200 (symbol timeframe : string) (bars : list OHLCV) (count : nat)
        (cached : bool)
| Error400 (detail : string)
| Error500.

(** The two [except] clauses: [ValueError] and its subclasses, then
    every other exception. *)
Definition on_exception (e : Api.error) : http_response :=
  match e with
  | Api.PyError (ValueError msg) => Error400 msg
  | Api.RequestError true msg => Error400 msg
  | _ => Error500
  end.

Section LocalTime.

Variable utc_offset : Z.

(** [get_chart_history]; the cache of the endpoint and the cache of the
    API client are the one object that [get_cache] returns. *)
Definition get_chart_history (symbol timeframe : string) (bars : Z)
    (upstream : Api.response) (api_client : Api.InsightSentryAPI)
  : Api.InsightSentryAPI * http_response :=
  let '(cache1, cached) :=
    Cache.get symbol timeframe (Api.cache api_client) in
  let api1 :=
    Api.mkApi cache1 (Api.rate_limiter api_client) (Api.clock api_client)
              (Api.requested api_client) in
  match cached with
  | Some cached =>
      (api1,
       Ok200 symbol timeframe (Api.last_bars bars cached)
             (length (Api.last_bars bars cached)) true)
  | None =>
      if bool_decide (timeframe ∈ ["1D"; "1W"; "1M"]) then
        match Api.fetch_historical_data symbol "1m" (bars * 1440) upstream api1 with
        | (api2, Api.Raises e) => (api2, on_exception e)
        | (api2, Api.Returns bars_1m) =>
            match Aggregator.aggregate_historical_1m_to_timeframe
                    utc_offset bars_1m timeframe with
            | Raise e => (api2, on_exception (Api.PyError e))
            | Ok aggregated =>
                (Api.mkApi (Cache.set symbol timeframe aggregated (Api.cache api2))
                           (Api.rate_limiter api2) (Api.clock api2)
                           (Api.requested api2),
                 Ok200 symbol timeframe (Api.last_bars bars aggregated)
                       (length (Api.last_bars bars aggregated)) false)
            end
        end
      else
        match Api.fetch_historical_data symbol timeframe bars upstream api1 with
        | (api2, Api.Raises e) => (api2, on_exception e)
        | (api2, Api.Returns ohlcv_bars) =>
            (api2, Ok200 symbol timeframe ohlcv_bars (length ohlcv_bars) false)
        end
  end.

(** One call of the endpoint with what the upstream service answers if
    it is asked, and a run of such calls. *)
Record call : Type := mkCall {
  call_symbol : string;
  call_timeframe : string;
  call_bars : Z;
  call_upstream : Api.response
}.

Fixpoint serve (calls : list call) (api_client : Api.InsightSentryAPI)
  : Api.InsightSentryAPI * list http_response :=
  match calls with
  | [] => (api_client, [])
  | c :: rest =>
      let '(api1, r) :=
        get_chart_history (call_symbol c) (call_timeframe c) (call_bars c)
                          (call_upstream c) api_client in
      let '(api2, rs) := serve rest api1 in
      (api2, r :: rs)
  end.

End LocalTime.

(** Nothing is stored for the timeframe "1M", under any symbol. *)
Definition monthly_absent (api_client : Api.InsightSentryAPI) : Prop :=
  forall symbol,
    Cache._cache (Api.cache api_client) !! (symbol, "1M") = None.

Definition refused (r : http_response) : Prop :=
  r = Error500 \/ exists detail, r = Error400 detail.

End Server.

(* ===================================================================== *)
(** * The combine rule                                                    *)
(* ===================================================================== *)

Section CombineRule.

Import Aggregator Spec.

Lemma fold_left_max_ge (rest : list Z) (x : Z) :
  x <= fold_left Z.max rest x /\
  forall y, y ∈ rest -> y <= fold_left Z.max rest x.
Proof.
  revert x. induction rest as [|z rest IH]; intros x; simpl.
  - split; [lia|]. intros y Hy. inversion Hy.
  - destruct (IH (Z.max x z)) as [Hx Hrest]. split; [lia|].
    intros y Hy. apply elem_of_cons in Hy as [->|Hy]; [lia|auto].
Qed.

Lemma fold_left_max_elem (rest : list Z) (x : Z) :
  fold_left Z.max rest x ∈ x :: rest.
Proof.
  revert x. induction rest as [|z rest IH]; intros x; simpl.
  - left.
  - specialize (IH (Z.max x z)). apply elem_of_cons in IH as [->|IH].
    + destruct (Z.max_spec x z) as [[_ ->]|[_ ->]]; [right; left|left].
    + right; right; exact IH.
Qed.

Lemma fold_left_min_le (rest : list Z) (x : Z) :
  fold_left Z.min rest x <= x /\
  forall y, y ∈ rest -> fold_left Z.min rest x <= y.
Proof.
  revert x. induction rest as [|z rest IH]; intros x; simpl.
  - split; [lia|]. intros y Hy. inversion Hy.
  - destruct (IH (Z.min x z)) as [Hx Hrest]. split; [lia|].
    intros y Hy. apply elem_of_cons in Hy as [->|Hy]; [lia|auto].
Qed.

Lemma fold_left_min_elem (rest : list Z) (x : Z) :
  fold_left Z.min rest x ∈ x :: rest.
Proof.
  revert x. induction rest as [|z rest IH]; intros x; simpl.
  - left.
  - specialize (IH (Z.min x z)). apply elem_of_cons in IH as [->|IH].
    + destruct (Z.min_spec x z) as [[_ ->]|[_ ->]]; [left|right; left].
    + right; right; exact IH.
Qed.

Lemma py_max_spec (x : Z) (rest : list Z) :
  exists m, py_max (x :: rest) = Ok m /\ is_max_of m (x :: rest).
Proof.
  eexists; split; [reflexivity|]. split; [apply fold_left_max_elem|].
  intros y Hy. destruct (fold_left_max_ge rest x) as [Hx Hrest].
  apply elem_of_cons in Hy as [->|Hy]; auto.
Qed.

Lemma py_min_spec (x : Z) (rest : list Z) :
  exists m, py_min (x :: rest) = Ok m /\ is_min_of m (x :: rest).
Proof.
  eexists; split; [reflexivity|]. split; [apply fold_left_min_elem|].
  intros y Hy. destruct (fold_left_min_le rest x) as [Hx Hrest].
  apply elem_of_cons in Hy as [->|Hy]; auto.
Qed.

Lemma fold_left_add_acc (xs : list Z) (a : Z) :
  fold_left Z.add xs a = a + sum_of xs.
Proof.
  revert a. induction xs as [|x xs IH]; intros a; simpl; [lia|].
  rewrite IH. unfold sum_of. lia.
Qed.

Lemma py_sum_spec (xs : list Z) : py_sum xs = sum_of xs.
Proof. unfold py_sum. rewrite fold_left_add_acc. lia. Qed.

Lemma List_last_cons {A : Type} (rest : list A) (x y : A) :
  List.last (y :: rest) x = List.last rest y.
Proof.
  revert x y. induction rest as [|z rest IH]; intros x y; [reflexivity|].
  change (List.last (y :: z :: rest) x) with (List.last (z :: rest) x).
  rewrite (IH x z), (IH y z). reflexivity.
Qed.

Lemma last_List_last {A : Type} (rest : list A) (x : A) :
  last (x :: rest) = Some (List.last rest x).
Proof.
  revert x. induction rest as [|y rest IH]; intros x; [reflexivity|].
  rewrite last_cons_cons, IH, List_last_cons. reflexivity.
Qed.

(** A non-empty sequence always combines, and the result obeys the rule. *)
Lemma combine_cons (b : OHLCV) (rest : list OHLCV) :
  exists r, combine (b :: rest) = Ok r /\ is_combine_of r (b :: rest).
Proof.
  destruct (py_max_spec (high b) (high <$> rest)) as (hi & Ehi & Hhi).
  destruct (py_min_spec (low b) (low <$> rest)) as (lo & Elo & Hlo).
  exists (mkOHLCV (time b) (open b) hi lo (close (List.last rest b))
                  (py_sum (volume <$> b :: rest))).
  split.
  - unfold combine. rewrite !fmap_cons.
    cbn [first mbind result_bind]. rewrite Ehi, Elo. reflexivity.
  - exists b, (List.last rest b). cbn [time open high low close volume].
    repeat split; try (apply Hhi || apply Hlo).
    + apply last_List_last.
    + apply py_sum_spec.
Qed.

Lemma _aggregate_bars_cons (b : OHLCV) (rest : list OHLCV) (timeframe : string) :
  _aggregate_bars (b :: rest) timeframe = combine (b :: rest).
Proof. reflexivity. Qed.



End CombineRule.

(* ===================================================================== *)
(** * The live engine                                                     *)
(* ===================================================================== *)

(** Evaluate the decisions on closed propositions (comparisons of
    literal keys) that occur in the goal. *)
Ltac eval_bool_decide :=
  repeat match goal with
  | |- context [bool_decide ?P] =>
      let b := eval vm_compute in (bool_decide P) in
      change (bool_decide P) with b
  end.

Section LiveEngine.

Import Aggregator Spec Invariants.

Variable utc_offset : Z.








Lemma _aggregate_bars_combined (bars : list OHLCV) (timeframe : string) :
  bars <> [] ->
  _aggregate_bars bars timeframe = Ok (combined bars) /\
  combine bars = Ok (combined bars).
Proof.
  intros Hne. destruct bars as [|b rest]; [congruence|].
  rewrite _aggregate_bars_cons. unfold combined.
  destruct (combine_cons b rest) as (r & -> & _). auto.
Qed.


(** Case analysis on a member of [windows]. *)
Ltac each_window Hin :=
  unfold windows in Hin;
  repeat (apply elem_of_cons in Hin as [Hin|Hin]; [injection Hin as -> ->|]);
  try (inversion Hin; fail).


Lemma bars_in_period_windows (timeframe : string) (n : nat) :
  (timeframe, n) ∈ windows -> bars_in_period timeframe = Ok n /\ (1 <= n)%nat.
Proof. intros Hin. each_window Hin. all: split; [reflexivity|lia]. Qed.


Lemma same_month_refl (bar : OHLCV) : same_month utc_offset bar bar = true.
Proof. unfold same_month. rewrite !Z.eqb_refl. reflexivity. Qed.

Lemma month_scan_acc (latest_bar : OHLCV) (bars acc : list OHLCV) :
  month_scan utc_offset latest_bar bars acc
  = acc ++ month_scan utc_offset latest_bar bars [].
Proof.
  revert acc. induction bars as [|bar bars IH]; intros acc; simpl.
  - rewrite app_nil_r. reflexivity.
  - destruct (same_month utc_offset bar latest_bar).
    + rewrite (IH (acc ++ [bar])), (IH [bar]), <- app_assoc. reflexivity.
    + rewrite app_nil_r. reflexivity.
Qed.

Lemma _aggregate_monthly_nonempty (daily_bars : list OHLCV) :
  daily_bars <> [] ->
  _aggregate_monthly utc_offset daily_bars =
  (latest_bar ← final daily_bars;
   match month_scan utc_offset latest_bar (reverse daily_bars) [] with
   | [] => Ok None
   | current_month_bars =>
       monthly ← _aggregate_bars (reverse current_month_bars) "1M";
       Ok (Some monthly)
   end).
Proof.
  destruct daily_bars as [|b l]; [congruence|]. intros _.
  unfold _aggregate_monthly. cbn [final mbind result_bind].
  destruct (month_scan utc_offset _ _ _); reflexivity.
Qed.

(** On a non-empty list of daily bars the monthly aggregation always
    returns a bar. *)
Lemma _aggregate_monthly_snoc (earlier : list OHLCV) (latest_bar : OHLCV) :
  exists run,
    run <> [] /\
    month_scan utc_offset latest_bar (reverse (earlier ++ [latest_bar])) []
      = reverse run /\
    _aggregate_monthly utc_offset (earlier ++ [latest_bar])
      = Ok (Some (combined run)).
Proof.
  set (scan := month_scan utc_offset latest_bar
                 (reverse (earlier ++ [latest_bar])) []).
  assert (Hscan : exists tl, scan = latest_bar :: tl).
  { unfold scan. rewrite reverse_snoc. simpl. rewrite same_month_refl.
    rewrite month_scan_acc. eexists. reflexivity. }
  destruct Hscan as [tl Hscan].
  exists (reverse scan). split; [|split].
  - rewrite Hscan, reverse_cons. intros E. apply (f_equal length) in E.
    rewrite length_app in E. simpl in E. lia.
  - rewrite reverse_involutive. reflexivity.
  - rewrite _aggregate_monthly_nonempty by (destruct earlier; discriminate).
    assert (Hfinal : final (earlier ++ [latest_bar]) = Ok latest_bar).
    { destruct earlier as [|b earlier]; [reflexivity|].
      simpl. f_equal. rewrite List.last_last. reflexivity. }
    rewrite Hfinal. cbn [mbind result_bind]. fold scan.
    rewrite Hscan.
    destruct (_aggregate_bars_combined (reverse (latest_bar :: tl)) "1M")
      as [-> _]; [|reflexivity].
    rewrite reverse_cons. intros E'. apply (f_equal length) in E'.
    rewrite length_app in E'. simpl in E'. lia.
Qed.







(** ** A call on an engine fed from empty *)




(** ** A call on an arbitrary engine state *)

Lemma intraday_step_frame (buffers : gmap string deque)
    (res res' : gmap string (list OHLCV)) (timeframe : string) :
  intraday_step buffers res timeframe = Ok res' ->
  (forall k, k <> timeframe -> res' !! k = res !! k) /\
  (res' !! timeframe = res !! timeframe \/ exists a, res' !! timeframe = Some [a]).
Proof.
  unfold intraday_step. intros H.
  destruct (getitem timeframe buffers) as [buf|]; [|discriminate].
  destruct (bars_in_period timeframe) as [n|]; [|discriminate].
  cbn [mbind result_bind] in H.
  destruct (n <=? length (items buf))%nat.
  - destruct (_aggregate_bars (items buf) timeframe) as [a|]; [|discriminate].
    injection H as <-. split.
    + intros k Hk. apply lookup_insert_ne. congruence.
    + right. exists a. apply lookup_insert_eq.
  - injection H as <-. auto.
Qed.

Lemma foldM_intraday_frame (buffers : gmap string deque)
    (tfs : list string) (res res' : gmap string (list OHLCV)) :
  foldM (intraday_step buffers) res tfs = Ok res' ->
  forall k, res' !! k = res !! k \/ (k ∈ tfs /\ exists a, res' !! k = Some [a]).
Proof.
  revert res. induction tfs as [|tf tfs IH]; intros res H k.
  - injection H as <-. auto.
  - cbn [foldM] in H.
    destruct (intraday_step buffers res tf) as [res1|] eqn:E; [|discriminate].
    cbn [mbind result_bind] in H.
    destruct (intraday_step_frame _ _ _ _ E) as [Hother Hsame].
    destruct (IH res1 H k) as [Hk|[Hin Hk]].
    + destruct (decide (k = tf)) as [->|Hne].
      * rewrite Hk. destruct Hsame as [Hs|Hs]; [left; exact Hs|].
        right. split; [left|exact Hs].
      * left. rewrite Hk. apply Hother. exact Hne.
    + right. split; [right; exact Hin|exact Hk].
Qed.

(** The shape of every successful call: the intraday loop produced
    [res5]; then either the daily window is short and nothing more
    happens, or a daily bar is completed, appended to the daily-bar list,
    and the weekly and monthly entries are derived from that list. *)
Lemma add_1m_bar_inv (bar : OHLCV) (s s' : TimeframeAggregator)
    (r : gmap string (list OHLCV)) :
  add_1m_bar utc_offset bar s = Ok (s', r) ->
  exists res5 buf,
    foldM (intraday_step (append_all bar (_buffers s))) {["1m" := [bar]]}
          ["5m"; "15m"; "30m"; "1H"; "4H"] = Ok res5 /\
    getitem "1D" (append_all bar (_buffers s)) = Ok buf /\
    _buffers s' = append_all bar (_buffers s) /\
    (((length (items buf) < 1440)%nat /\ r = res5 /\
      _daily_bars s' = _daily_bars s)
     \/
     ((1440 <= length (items buf))%nat /\
      exists daily_bar monthly,
        _aggregate_bars (items buf) "1D" = Ok daily_bar /\
        _daily_bars s' = _daily_bars s ++ [daily_bar] /\
        _aggregate_monthly utc_offset (_daily_bars s') = Ok (Some monthly) /\
        (((length (_daily_bars s') < 5)%nat /\
          r = <["1M" := [monthly]]> (<["1D" := [daily_bar]]> res5))
         \/
         ((5 <= length (_daily_bars s'))%nat /\
          exists weekly_bar,
            _aggregate_bars (lastn 5 (_daily_bars s')) "1W" = Ok weekly_bar /\
            r = <["1M" := [monthly]]>
                  (<["1W" := [weekly_bar]]> (<["1D" := [daily_bar]]> res5)))))).
Proof.
  unfold add_1m_bar. intros H.
  destruct (foldM _ _ _) as [res5|]; [|discriminate].
  cbn [mbind result_bind] in H.
  destruct (getitem "1D" _) as [buf|]; [|discriminate].
  destruct (bars_in_period_windows "1D" 1440) as [E _];
    [unfold windows; set_solver|]. rewrite E in H. clear E.
  cbn [mbind result_bind] in H.
  exists res5, buf. split; [reflexivity|]. split; [reflexivity|].
  destruct (Nat.leb_spec 1440 (length (items buf))) as [Hday|Hday].
  - destruct (_aggregate_bars (items buf) "1D") as [daily_bar|]; [|discriminate].
    cbn [mbind result_bind] in H.
    destruct (_aggregate_monthly_snoc (_daily_bars s) daily_bar)
      as (run & _ & _ & Hmonth).
    rewrite Hmonth in H.
    destruct (Nat.leb_spec 5 (length (_daily_bars s ++ [daily_bar])))
      as [Hweek|Hweek].
    + destruct (_aggregate_bars (lastn 5 _) "1W") as [weekly_bar|] eqn:Ew;
        [|discriminate].
      cbn [mbind result_bind] in H. injection H as <- <-.
      split; [reflexivity|]. right. split; [exact Hday|].
      exists daily_bar, (combined run). cbn [_daily_bars].
      repeat split; try assumption. right. split; [exact Hweek|].
      exists weekly_bar. split; [exact Ew|reflexivity].
    + cbn [mbind result_bind] in H. injection H as <- <-.
      split; [reflexivity|]. right. split; [exact Hday|].
      exists daily_bar, (combined run). cbn [_daily_bars].
      repeat split; try assumption. left. split; [exact Hweek|reflexivity].
  - injection H as <- <-. split; [reflexivity|]. left. auto.
Qed.




(** ** The scan of the monthly aggregation *)




(** ** The claims about the live engine *)





End LiveEngine.

(** ** The claims at sample inputs (UTC) *)

Lemma returned_Ok {A B : Type} (out : result (A * B)) (d : A * B) :
  Samples.returned out = true ->
  out = Ok ((match out with Ok p => p | Raise _ => d end).1,
            (match out with Ok p => p | Raise _ => d end).2).
Proof. destruct out as [[a b]|]; [reflexivity|discriminate]. Qed.





(* ===================================================================== *)
(** * The historical batch aggregator                                     *)
(* ===================================================================== *)

Section Historical.

Import Aggregator Spec Invariants.

Variable utc_offset : Z.

Lemma chunk_step_spec (bars : list OHLCV) (n : nat) (acc : list OHLCV) (i : nat) :
  (1 <= n)%nat ->
  chunk_step bars n acc i =
  Ok (if (i + n <=? length bars)%nat
      then acc ++ [combined (take n (drop i bars))] else acc).
Proof.
  intros Hn. unfold chunk_step. rewrite length_take, length_drop.
  destruct (Nat.leb_spec (i + n) (length bars)) as [Hle|Hgt].
  - replace (Nat.min n (length bars - i) =? n)%nat with true
      by (symmetry; apply Nat.eqb_eq; lia).
    destruct (_aggregate_bars_combined (take n (drop i bars)) "") as [_ ->];
      [|reflexivity].
    intros E. apply (f_equal length) in E.
    rewrite length_take, length_drop in E. simpl in E. lia.
  - replace (Nat.min n (length bars - i) =? n)%nat with false
      by (symmetry; apply Nat.eqb_neq; lia).
    reflexivity.
Qed.

Lemma foldM_chunk_step (bars : list OHLCV) (n : nat) (ks : list nat)
    (acc : list OHLCV) :
  (1 <= n)%nat ->
  foldM (chunk_step bars n) acc ((fun k => (k * n)%nat) <$> ks) =
  Ok (acc ++ ((fun k => combined (take n (drop (k * n) bars)))
                <$> (filter (fun k => (k < length bars / n)%nat) ks))).
Proof.
  intros Hn. revert acc. induction ks as [|k ks IH]; intros acc.
  - simpl. rewrite app_nil_r. reflexivity.
  - rewrite fmap_cons. cbn [foldM]. rewrite chunk_step_spec by exact Hn.
    cbn [mbind result_bind]. rewrite IH, filter_cons.
    assert (Hiff : (k * n + n <= length bars)%nat <-> (k < length bars / n)%nat).
    { split; intros H.
      - apply Nat.div_le_lower_bound; lia.
      - assert (S k * n <= length bars)%nat; [|lia].
        transitivity (length bars / n * n)%nat.
        + apply Nat.mul_le_mono_r. lia.
        + rewrite Nat.mul_comm. apply Nat.Div0.mul_div_le. }
    destruct (Nat.leb_spec (k * n + n) (length bars)) as [Hle|Hgt].
    + rewrite decide_True by (apply Hiff; exact Hle).
      rewrite fmap_cons, <- app_assoc. reflexivity.
    + rewrite decide_False by (rewrite <- Hiff; lia). reflexivity.
Qed.

Lemma filter_seq_lt_from (a m q : nat) :
  filter (fun k => (k < q)%nat) (seq a m) = seq a (Nat.min m (q - a)).
Proof.
  revert a. induction m as [|m IH]; intros a; [reflexivity|].
  cbn [seq]. rewrite filter_cons, IH.
  destruct (decide (a < q)%nat) as [Hlt|Hge].
  - replace (q - a)%nat with (S (q - S a)) by lia. reflexivity.
  - replace (q - S a)%nat with 0%nat by lia.
    replace (q - a)%nat with 0%nat by lia.
    rewrite !Nat.min_0_r. reflexivity.
Qed.

Lemma filter_seq_lt (m q : nat) :
  (q <= m)%nat -> filter (fun k => (k < q)%nat) (seq 0 m) = seq 0 q.
Proof.
  intros Hq. rewrite filter_seq_lt_from. f_equal. lia.
Qed.

(** Targets other than 5m that have a fixed bar count take the chunk
    loop, which combines the consecutive full chunks and drops a trailing
    partial one. *)
Lemma historical_chunks (bars_1m : list OHLCV) (timeframe : string) (n : nat) :
  (timeframe, n) ∈ [("15m", 15%nat); ("30m", 30%nat); ("1H", 60%nat);
                    ("4H", 240%nat); ("1D", 1440%nat)] ->
  aggregate_historical_1m_to_timeframe utc_offset bars_1m timeframe =
  Ok ((fun k => combined (take n (drop (k * n) bars_1m)))
        <$> seq 0 (length bars_1m / n)).
Proof.
  intros Hin.
  repeat (apply elem_of_cons in Hin as [Hin|Hin]; [injection Hin as -> ->|]);
    try (inversion Hin; fail).
  all: unfold aggregate_historical_1m_to_timeframe.
  all: eval_bool_decide; cbv iota.
  all: match goal with
       | |- context [TIMEFRAMES !! ?k] =>
           let v := eval vm_compute in (TIMEFRAMES !! k) in
           change (TIMEFRAMES !! k) with v
       end.
  all: cbn [fst Nat.eqb range_step mbind result_bind].
  all: rewrite foldM_chunk_step by lia.
  all: rewrite filter_seq_lt; [reflexivity|].
  all: apply Nat.Div0.div_le_mono; lia.
Qed.

(** C3 (what the code does).  The batch function sends the target "5m"
    down the weekly branch, because its test [bars_needed == 5] holds for
    5m as well as for 1W: the bars are grouped by calendar date and then
    by ISO week.  Twelve 1-minute bars of one day therefore come back as
    ONE bar covering all twelve, not as the two bars of the chunks 1-5 and
    6-10.  The sibling target 15m takes the chunk loop: 32 bars give the
    two bars of the chunks 1-15 and 16-30. *)
Theorem C3_five_minute_target_is_grouped_by_week :
  (forall bars_1m,
     aggregate_historical_1m_to_timeframe utc_offset bars_1m "5m" =
     (daily_bars ← _aggregate_to_daily utc_offset bars_1m;
      _aggregate_to_weekly utc_offset daily_bars)) /\
  aggregate_historical_1m_to_timeframe 0 (Samples.minute_bars 12) "5m"
    = Ok [combined (Samples.minute_bars 12)] /\
  aggregate_historical_1m_to_timeframe 0 (Samples.minute_bars 12) "5m"
    <> Ok [combined (take 5 (Samples.minute_bars 12));
           combined (take 5 (drop 5 (Samples.minute_bars 12)))] /\
  aggregate_historical_1m_to_timeframe 0 (Samples.minute_bars 32) "15m"
    = Ok [combined (take 15 (Samples.minute_bars 32));
          combined (take 15 (drop 15 (Samples.minute_bars 32)))].
Proof.
  split; [intros bars_1m; reflexivity|].
  split; [vm_compute; reflexivity|].
  split; [vm_compute; discriminate|].
  vm_compute; reflexivity.
Qed.

End Historical.

(* ===================================================================== *)
(** * The rate limiter                                                    *)
(* ===================================================================== *)

Section TokenBucket.

Import RateLimiter Invariants.

Local Open Scope Q_scope.

Lemma wait_if_needed_admits (self : RateLimiter) (w : world) :
  fresh_25_60 self w -> 1 <= tokens self -> tokens self <= 25 ->
  exists self',
    wait_if_needed self w = Ok (self', w) /\
    fresh_25_60 self' w /\ tokens self' == tokens self - 1.
Proof.
  destruct self as [rl p tk lu]. unfold fresh_25_60.
  cbn [rate_limit period tokens last_update].
  intros (-> & -> & ->) Hlo Hhi.
  unfold wait_if_needed, time_time.
  cbn [rate_limit period tokens last_update].
  change (truediv (inject_Z 25) (inject_Z 60)) with (Ok (25 / 60)).
  cbn [mbind result_bind].
  assert (Hadd : tk + (now w - now w) * (25 / 60) == tk) by field.
  assert (Htk1 : Qmin (inject_Z 25) (tk + (now w - now w) * (25 / 60)) == tk).
  { rewrite Q.min_r; [exact Hadd|]. rewrite Hadd. exact Hhi. }
  destruct (Qlt_le_dec _ 1) as [Hlt|Hge].
  - rewrite Htk1 in Hlt. lra.
  - eexists. split; [reflexivity|].
    cbn [rate_limit period tokens last_update]. repeat split.
    rewrite Htk1. reflexivity.
Qed.

Lemma wait_if_needed_blocks (self : RateLimiter) (w : world) :
  fresh_25_60 self w -> tokens self < 1 ->
  exists self' d,
    wait_if_needed self w = Ok (self', time_sleep d w) /\
    d == 60 / 25 /\
    fresh_25_60 self' (time_sleep d w) /\ tokens self' == 25 - 1.
Proof.
  destruct self as [rl p tk lu]. unfold fresh_25_60.
  cbn [rate_limit period tokens last_update].
  intros (-> & -> & ->) Hlo.
  unfold wait_if_needed, time_time.
  cbn [rate_limit period tokens last_update].
  change (truediv (inject_Z 25) (inject_Z 60)) with (Ok (25 / 60)).
  cbn [mbind result_bind].
  assert (Hadd : tk + (now w - now w) * (25 / 60) == tk) by field.
  assert (Htk1 : Qmin (inject_Z 25) (tk + (now w - now w) * (25 / 60)) == tk).
  { rewrite Q.min_r; [exact Hadd|]. rewrite Hadd.
    change (inject_Z 25) with 25. lra. }
  destruct (Qlt_le_dec _ 1) as [Hlt|Hge].
  - change (truediv 1 (inject_Z 25)) with (Ok (1 / 25)).
    cbn [mbind result_bind].
    eexists _, _. split; [reflexivity|].
    cbn [rate_limit period tokens last_update now time_sleep].
    split; [reflexivity|]. split; [repeat split|reflexivity].
  - rewrite Htk1 in Hge. lra.
Qed.

Lemma acquire_n_admits (k : nat) (self : RateLimiter) (w : world) :
  fresh_25_60 self w ->
  inject_Z (Z.of_nat k) <= tokens self -> tokens self <= 25 ->
  exists self',
    acquire_n k self w = Ok (self', w) /\
    fresh_25_60 self' w /\
    tokens self' == tokens self - inject_Z (Z.of_nat k).
Proof.
  revert self. induction k as [|k IH]; intros self Hfresh Hlo Hhi.
  - exists self. split; [reflexivity|]. split; [exact Hfresh|].
    cbn. ring.
  - rewrite Nat2Z.inj_succ in Hlo |- *. unfold Z.succ in Hlo |- *.
    rewrite inject_Z_plus in Hlo |- *.
    assert (H0 : 0 <= inject_Z (Z.of_nat k)).
    { change 0 with (inject_Z 0). rewrite <- Zle_Qle. lia. }
    destruct (wait_if_needed_admits self w Hfresh) as (self1 & E1 & Hf1 & Ht1);
      [change (inject_Z 1) with 1 in Hlo; lra|exact Hhi|].
    destruct (IH self1 Hf1) as (self' & E' & Hf' & Ht');
      [rewrite Ht1; change (inject_Z 1) with 1 in Hlo; lra|rewrite Ht1; lra|].
    exists self'. split; [|split; [exact Hf'|]].
    + cbn [acquire_n]. rewrite E1. exact E'.
    + rewrite Ht', Ht1. change (inject_Z 1) with 1. ring.
Qed.

Lemma acquire_n_snoc (k : nat) (self : RateLimiter) (w : world) :
  acquire_n (S k) self w =
  ('(self', w') ← acquire_n k self w; wait_if_needed self' w').
Proof.
  revert self w. induction k as [|k IH]; intros self w.
  - cbn. destruct (wait_if_needed self w) as [[a b]|]; reflexivity.
  - change (acquire_n (S (S k)) self w)
      with ('(self', w') ← wait_if_needed self w; acquire_n (S k) self' w').
    change (acquire_n (S k) self w)
      with ('(self', w') ← wait_if_needed self w; acquire_n k self' w').
    destruct (wait_if_needed self w) as [[self1 w1]|]; [|reflexivity].
    cbn [mbind result_bind]. rewrite IH. reflexivity.
Qed.

Lemma wait_if_needed_bound (self self' : RateLimiter) (w w' : world) :
  wait_if_needed self w = Ok (self', w') ->
  rate_limit self' = rate_limit self /\
  tokens self' <= inject_Z (rate_limit self') - 1.
Proof.
  unfold wait_if_needed. intros H.
  destruct (truediv (inject_Z (rate_limit self)) _) as [rate|];
    cbn [mbind result_bind] in H; [|discriminate].
  destruct (Qlt_le_dec _ _) as [Hlt|Hge].
  - destruct (truediv _ _) as [inv|];
      cbn [mbind result_bind] in H; [|discriminate].
    injection H as <- <-. cbn [rate_limit tokens].
    split; [reflexivity|]. lra.
  - injection H as <- <-. cbn [rate_limit tokens]. split; [reflexivity|].
    pose proof (Q.le_min_l (inject_Z (rate_limit self))
                  (tokens self + (time_time w - last_update self) * rate)).
    lra.
Qed.

Lemma get_available_tokens_bound (self : RateLimiter) (w : world) (a : Q) :
  get_available_tokens self w = Ok a -> a <= inject_Z (rate_limit self).
Proof.
  unfold get_available_tokens. intros H.
  destruct (truediv _ _) as [rate|];
    cbn [mbind result_bind] in H; [|discriminate].
  injection H as <-. apply Q.le_min_l.
Qed.

(** C6.  A limiter built for 25 requests per 60 seconds at clock reading
    [t0]: any [k <= 25] consecutive calls of [wait_if_needed] with no time
    passing all return without sleeping (the clock and the record of
    sleeps are untouched) and leave [25 - k] tokens; the 26th call sleeps
    once, for [(1/25) * 60 = 60/25] seconds, and leaves [25 - 1] tokens
    (reset to capacity, then one consumed).  Whatever the state and the
    clock, the tokens after a call of [wait_if_needed] and the value
    returned by [get_available_tokens] never exceed the capacity. *)
Theorem C6_token_bucket :
  (forall (t0 : Q) (k : nat), (k <= 25)%nat ->
     let w0 := mkWorld t0 [] in
     exists self,
       acquire_n k (__init__ 25 60 w0) w0 = Ok (self, w0) /\
       tokens self == 25 - inject_Z (Z.of_nat k)) /\
  (forall (t0 : Q),
     let w0 := mkWorld t0 [] in
     exists self d,
       acquire_n 26 (__init__ 25 60 w0) w0 = Ok (self, mkWorld (t0 + d) [d]) /\
       d == 60 / 25 /\
       tokens self == 25 - 1) /\
  (forall self w self' w',
     wait_if_needed self w = Ok (self', w') ->
     tokens self' <= inject_Z (rate_limit self')) /\
  (forall self w a,
     get_available_tokens self w = Ok a ->
     a <= inject_Z (rate_limit self)).
Proof.
  assert (Hrun : forall (t0 : Q) (k : nat), (k <= 25)%nat ->
     exists self,
       acquire_n k (__init__ 25 60 (mkWorld t0 [])) (mkWorld t0 [])
         = Ok (self, mkWorld t0 []) /\
       fresh_25_60 self (mkWorld t0 []) /\
       tokens self == 25 - inject_Z (Z.of_nat k)).
  { intros t0 k Hk.
    destruct (acquire_n_admits k (__init__ 25 60 (mkWorld t0 [])) (mkWorld t0 []))
      as (self & E & Hf & Ht).
    - repeat split.
    - unfold __init__. cbn [tokens]. rewrite <- Zle_Qle. lia.
    - unfold __init__. cbn [tokens]. apply Qle_refl.
    - exists self. split; [exact E|]. split; [exact Hf|].
      rewrite Ht. unfold __init__. cbn [tokens]. reflexivity. }
  split; [|split; [|split]].
  - intros t0 k Hk w0. destruct (Hrun t0 k Hk) as (self & E & _ & Ht). eauto.
  - intros t0 w0. subst w0.
    destruct (Hrun t0 25%nat) as (self & E & Hf & Ht); [lia|].
    destruct (wait_if_needed_blocks self (mkWorld t0 []) Hf)
      as (self' & d & E' & Hd & _ & Ht').
    { rewrite Ht. change (inject_Z (Z.of_nat 25)) with 25. lra. }
    exists self', d. split; [|split; [exact Hd|exact Ht']].
    rewrite acquire_n_snoc, E. exact E'.
  - intros self w self' w' H.
    destruct (wait_if_needed_bound _ _ _ _ H) as [_ Hb]. lra.
  - intros self w a H. exact (get_available_tokens_bound _ _ _ H).
Qed.

End TokenBucket.

(** C6 at clock reading 0: 25 calls in a row, and the bounds after seven
    seconds have passed. *)
Lemma C6_witness :
  let w0 := RateLimiter.mkWorld 0 [] in
  let self0 := RateLimiter.__init__ 25 60 w0 in
  (exists self,
     RateLimiter.acquire_n 25 self0 w0 = Ok (self, w0) /\
     (RateLimiter.tokens self == 0)%Q) /\
  (exists self' w',
     RateLimiter.wait_if_needed self0 (RateLimiter.advance 7 w0) = Ok (self', w') /\
     (RateLimiter.tokens self' <= 25)%Q) /\
  (exists a,
     RateLimiter.get_available_tokens self0 (RateLimiter.advance 7 w0) = Ok a /\
     (a <= 25)%Q).
Proof.
  intros w0 self0.
  destruct C6_token_bucket as (Hrun & _ & Hwait & Hpeek).
  split; [|split].
  - destruct (Hrun 0%Q 25%nat) as (self & E & Ht); [lia|].
    exists self. split; [exact E|]. rewrite Ht. reflexivity.
  - eexists _, _. split; [vm_compute; reflexivity|].
    eapply (Hwait self0 (RateLimiter.advance 7 w0)).
    vm_compute. reflexivity.
  - eexists. split; [vm_compute; reflexivity|].
    eapply (Hpeek self0 (RateLimiter.advance 7 w0)).
    vm_compute. reflexivity.
Defined.

(* ===================================================================== *)
(** * The data cache                                                      *)
(* ===================================================================== *)

Section DataCacheProps.

Import Cache.

Local Open Scope Q_scope.

(** [round2 x] is a multiple of 1/100 at distance at most 1/200 of [x]. *)
Lemma round2_nearest (x : Q) :
  (exists n : Z, round2 x == inject_Z n / 100) /\
  x - 1 / 200 <= round2 x /\ round2 x <= x + 1 / 200.
Proof.
  unfold round2.
  pose proof (Qfloor_le (x * 100)) as Hlo.
  pose proof (Qlt_floor (x * 100)) as Hhi.
  rewrite inject_Z_plus in Hhi. change (inject_Z 1) with 1 in Hhi.
  generalize dependent (Qfloor (x * 100)). intros f Hlo Hhi.
  assert (Hdiv : forall k : Z, inject_Z k / 100 == inject_Z k * (1 # 100))
    by (intros k; reflexivity).
  assert (H200 : 1 / 200 == 1 # 200) by reflexivity.
  rewrite H200.
  destruct (x * 100 - inject_Z f ?= 1 # 2) eqn:Hcmp.
  - apply Qeq_alt in Hcmp.
    destruct (Z.even f); (split; [eexists; reflexivity|]); rewrite Hdiv.
    + split; lra.
    + rewrite inject_Z_plus. change (inject_Z 1) with 1. split; lra.
  - apply Qlt_alt in Hcmp. split; [eexists; reflexivity|]. rewrite Hdiv.
    split; lra.
  - apply Qgt_alt in Hcmp. split; [eexists; reflexivity|]. rewrite Hdiv.
    rewrite inject_Z_plus. change (inject_Z 1) with 1. split; lra.
Qed.

(** A value that already is a multiple of 1/100 is left as it is. *)
Lemma round2_exact (x : Q) (k : Z) :
  x == inject_Z k / 100 -> round2 x == x.
Proof.
  intros Hx. unfold round2.
  assert (Hn : x * 100 == inject_Z k) by (rewrite Hx; field).
  assert (Hf : Qfloor (x * 100) = k).
  { rewrite (Qfloor_comp _ _ Hn). apply Qfloor_Z. }
  rewrite Hf.
  assert (Hcmp : (x * 100 - inject_Z k ?= 1 # 2) = Lt).
  { apply (proj1 (Qlt_alt _ _)). rewrite Hn. clear. lra. }
  rewrite Hcmp. rewrite Hx. reflexivity.
Qed.

(** C7 (as amended).  A [set] followed by a [get] of the same key returns
    the stored series and adds one to the hit counter, leaving the miss
    counter; a [get] of a key that is not stored, in particular any [get]
    after [clear], returns nothing and adds one to the miss counter,
    leaving the hit counter.  [get_stats] reports the two counters, and
    as [hit_rate_percent] the value [hits / (hits + misses) * 100]
    ROUNDED to two decimals: a multiple of 1/100 within 1/200 of that
    value, equal to it when it is itself a multiple of 1/100; it reports
    0 when [hits + misses = 0]. *)
Theorem C7_cache_get_set_stats :
  (forall self symbol timeframe bars,
     get symbol timeframe (set symbol timeframe bars self) =
     (mkCache (<[(symbol, timeframe) := bars]> (_cache self))
              (_cache_hits self + 1) (_cache_misses self),
      Some bars)) /\
  (forall self symbol timeframe,
     _cache self !! (symbol, timeframe) = None ->
     get symbol timeframe self =
     (mkCache (_cache self) (_cache_hits self) (_cache_misses self + 1),
      None)) /\
  (forall self symbol timeframe,
     get symbol timeframe (clear self) =
     (mkCache ∅ (_cache_hits self) (_cache_misses self + 1), None)) /\
  (forall self,
     let hits := _cache_hits self in
     let misses := _cache_misses self in
     let exact := inject_Z hits / inject_Z (hits + misses) * 100 in
     let reported := hit_rate_percent (get_stats self) in
     cache_hits (get_stats self) = hits /\
     cache_misses (get_stats self) = misses /\
     ((hits + misses = 0)%Z -> reported == 0) /\
     ((0 < hits + misses)%Z ->
        (exists n : Z, reported == inject_Z n / 100) /\
        exact - 1 / 200 <= reported /\ reported <= exact + 1 / 200 /\
        (forall k : Z, exact == inject_Z k / 100 -> reported == exact))).
Proof.
  split; [|split; [|split]].
  - intros self symbol timeframe bars. unfold get, set. cbn [_cache].
    rewrite lookup_insert_eq. reflexivity.
  - intros self symbol timeframe Hnone. unfold get. rewrite Hnone. reflexivity.
  - intros self symbol timeframe. unfold get, clear. cbn [_cache].
    rewrite lookup_empty. reflexivity.
  - intros self hits misses exact reported.
    split; [reflexivity|]. split; [reflexivity|]. split.
    + intros Hzero. unfold reported, get_stats, hit_rate.
      cbn [hit_rate_percent]. fold hits misses. rewrite Hzero. reflexivity.
    + intros Hpos.
      assert (Hrate : hit_rate self = exact).
      { unfold hit_rate. fold hits misses.
        replace (0 <? hits + misses)%Z with true
          by (symmetry; apply Z.ltb_lt; exact Hpos).
        reflexivity. }
      unfold reported, get_stats. cbn [hit_rate_percent]. rewrite Hrate.
      destruct (round2_nearest exact) as (Hn & Hlo & Hhi).
      split; [exact Hn|]. split; [exact Hlo|]. split; [exact Hhi|].
      intros k Hk. exact (round2_exact exact k Hk).
Qed.

End DataCacheProps.

(** C7 at a cache that has served one hit and one miss: the reported
    rate is 50. *)
Lemma C7_witness :
  let bars := [Samples.minute_bar 1] in
  let c0 := Cache.set "MNQ" "1m" bars Cache.__init__ in
  let c1 := (Cache.get "MNQ" "1m" c0).1 in
  let c2 := (Cache.get "ES" "1m" c1).1 in
  (Cache.get "ES" "1m" c1).2 = None /\
  Cache._cache_misses c2 = 1 /\
  (Cache.hit_rate_percent (Cache.get_stats c2) == 50)%Q.
Proof.
  intros bars c0 c1 c2.
  destruct C7_cache_get_set_stats as (_ & Hmiss & _ & Hstats).
  assert (Hget := Hmiss c1 "ES" "1m" ltac:(vm_compute; reflexivity)).
  split; [rewrite Hget; reflexivity|].
  split; [unfold c2; rewrite Hget; reflexivity|].
  destruct (Hstats c2) as (_ & _ & _ & Hpos).
  destruct Hpos as (_ & _ & _ & Hexact); [vm_compute; reflexivity|].
  rewrite (Hexact 5000%Z); vm_compute; reflexivity.
Defined.

(** C7 without the rounding fails at the cache that has served one hit
    and two misses: the reported rate is 33.33, not 100/3. *)
Lemma C7_counterexample :
  let bars := [Samples.minute_bar 1] in
  let c0 := Cache.set "MNQ" "1m" bars Cache.__init__ in
  let c1 := (Cache.get "MNQ" "1m" c0).1 in
  let c2 := (Cache.get "ES" "1m" c1).1 in
  let c3 := (Cache.get "ES" "1m" c2).1 in
  Cache._cache_hits c3 = 1 /\ Cache._cache_misses c3 = 2 /\
  (Cache.hit_rate_percent (Cache.get_stats c3) == 3333 # 100)%Q /\
  ~ (Cache.hit_rate_percent (Cache.get_stats c3)
     == inject_Z (Cache._cache_hits c3)
        / inject_Z (Cache._cache_hits c3 + Cache._cache_misses c3) * 100)%Q.
Proof.
  intros bars c0 c1 c2 c3.
  split; [reflexivity|]. split; [reflexivity|].
  split; [vm_compute; reflexivity|].
  vm_compute. discriminate.
Qed.

(* ===================================================================== *)
(** * The ingestion client                                                *)
(* ===================================================================== *)

Section IngestionClient.

Import WsClient Invariants.

Local Open Scope nat_scope.

Lemma connects_app (tr tr' : list event) :
  connects (tr ++ tr') = connects tr ++ connects tr'.
Proof. unfold connects. apply omap_app. Qed.

(** ** The handler of a closed connection and one pass of the loop *)

Lemma on_connection_closed_spec (c : client) :
  let a := reconnect_attempts c + 1 in
  let c' := (on_connection_closed c).1 in
  reconnect_attempts c' = a /\
  is_connected c' = false /\
  max_reconnect_attempts c' = max_reconnect_attempts c /\
  base_reconnect_delay c' = base_reconnect_delay c /\
  websocket c' = websocket c /\
  (on_connection_closed c).2 =
    if a <? max_reconnect_attempts c
    then [EvSleep (base_reconnect_delay c * 2 ^ (a - 1))] else [].
Proof.
  destruct c as [key sym agg ws conn mx base att].
  unfold on_connection_closed.
  cbn -[Nat.ltb Nat.pow Nat.add Nat.sub Nat.mul].
  destruct (att + 1 <? mx); repeat split.
Qed.

Lemma connect_iter_fields (o : attempt) (c : client) :
  let c' := (connect_iter o c).1.1 in
  max_reconnect_attempts c' = max_reconnect_attempts c /\
  base_reconnect_delay c' = base_reconnect_delay c /\
  (client_inv c -> client_inv c').
Proof.
  unfold connect_iter, client_inv.
  destruct o as [| |agg e].
  - pose proof (on_connection_closed_spec c) as (_ & Hc & Hm & Hb & _).
    destruct (on_connection_closed c) as [c' evs]. cbn in *.
    rewrite Hc. repeat split; auto. discriminate.
  - cbn. repeat split. discriminate.
  - destruct e.
    + match goal with |- context [on_connection_closed ?x] =>
        pose proof (on_connection_closed_spec x) as (_ & Hc & Hm & Hb & _);
        destruct (on_connection_closed x) as [c' evs] end.
      cbn in *. rewrite Hc, Hm, Hb. repeat split. discriminate.
    + cbn. repeat split. discriminate.
    + cbn. repeat split. intros _ _. eexists. reflexivity.
Qed.

(** The attempt counter after one pass: a closure of the connection
    counts one more failure, a successful connection starts the count
    again from 0. *)
Lemma connect_iter_attempts (o : attempt) (c : client) :
  reconnect_attempts (connect_iter o c).1.1 =
  match o with
  | ConnectClosed => reconnect_attempts c + 1
  | ConnectError => reconnect_attempts c
  | Connected _ SessionClosed => 1
  | Connected _ _ => 0
  end.
Proof.
  unfold connect_iter. destruct o as [| |agg e].
  - pose proof (on_connection_closed_spec c) as (Ha & _).
    destruct (on_connection_closed c) as [c' evs]. exact Ha.
  - reflexivity.
  - destruct e; try reflexivity.
    match goal with |- context [on_connection_closed ?x] =>
      pose proof (on_connection_closed_spec x) as (Ha & _);
      destruct (on_connection_closed x) as [c' evs] end.
    exact Ha.
Qed.

Lemma connect_iter_connects (o : attempt) (c : client) :
  connects (connect_iter o c).1.2 =
  [match o with Connected _ _ => true | _ => false end].
Proof.
  unfold connect_iter. destruct o as [| |agg e].
  - pose proof (on_connection_closed_spec c) as (_ & _ & _ & _ & _ & Hev).
    destruct (on_connection_closed c) as [c' evs]. cbn [fst snd] in Hev |- *.
    rewrite Hev. destruct (_ <? _); reflexivity.
  - reflexivity.
  - destruct e; try reflexivity.
    match goal with |- context [on_connection_closed ?x] =>
      pose proof (on_connection_closed_spec x) as (_ & _ & _ & _ & _ & Hev);
      destruct (on_connection_closed x) as [c' evs] end.
    cbn [fst snd] in Hev |- *. rewrite Hev. destruct (_ <? _); reflexivity.
Qed.

Lemma connect_iter_breaks (o : attempt) (c : client) :
  (connect_iter o c).2 =
  match o with
  | ConnectError | Connected _ SessionError => true
  | _ => false
  end.
Proof.
  unfold connect_iter. destruct o as [| |agg []]; try reflexivity.
  - destruct (on_connection_closed c). reflexivity.
  - destruct (on_connection_closed _). reflexivity.
Qed.

Lemma connect_iter_break (o : attempt) (c : client) :
  (connect_iter o c).2 = true -> is_connected (connect_iter o c).1.1 = false.
Proof.
  unfold connect_iter. destruct o as [| |agg e].
  - destruct (on_connection_closed c). discriminate.
  - reflexivity.
  - destruct e; try discriminate; [|reflexivity].
    destruct (on_connection_closed _). discriminate.
Qed.

Lemma connect_iter_exhausted (o : attempt) (c : client) :
  reconnect_attempts c < max_reconnect_attempts c ->
  (connect_iter o c).2 = false ->
  max_reconnect_attempts c <= reconnect_attempts (connect_iter o c).1.1 ->
  is_connected (connect_iter o c).1.1 = false.
Proof.
  intros Hlt Hbrk Hmax. rewrite connect_iter_attempts in Hmax.
  revert Hbrk. unfold connect_iter. destruct o as [| |agg e].
  - pose proof (on_connection_closed_spec c) as (_ & Hc & _).
    destruct (on_connection_closed c). intros _. exact Hc.
  - discriminate.
  - destruct e.
    + match goal with |- context [on_connection_closed ?x] =>
        pose proof (on_connection_closed_spec x) as (_ & Hc & _);
        destruct (on_connection_closed x) end.
      intros _. exact Hc.
    + discriminate.
    + intros _. lia.
Qed.

(** ** The whole loop *)

Lemma connect_unfold (script : list attempt) (c : client) :
  connect script c =
  if reconnect_attempts c <? max_reconnect_attempts c then
    match script with
    | [] => (c, [], false)
    | o :: rest =>
        let '(c1, evs, brk) := connect_iter o c in
        if brk then (c1, evs, true)
        else
          let '(c2, evs', returned) := connect rest c1 in
          (c2, evs ++ evs', returned)
    end
  else (c, [], true).
Proof. destruct script; reflexivity. Qed.

(** The loop keeps the retry settings and the class invariant. *)
Lemma connect_fields (script : list attempt) (c : client) :
  max_reconnect_attempts (connect script c).1.1 = max_reconnect_attempts c /\
  base_reconnect_delay (connect script c).1.1 = base_reconnect_delay c /\
  (client_inv c -> client_inv (connect script c).1.1).
Proof.
  revert c. induction script as [|o rest IH]; intros c; rewrite connect_unfold.
  - destruct (_ <? _); cbn [fst]; auto.
  - destruct (_ <? _); cbn [fst]; auto.
    pose proof (connect_iter_fields o c) as (Hm & Hb & Hi).
    destruct (connect_iter o c) as [[c1 evs] brk]. cbn [fst] in Hm, Hb, Hi.
    destruct brk; cbn [fst]; auto.
    specialize (IH c1). destruct (connect rest c1) as [[c2 evs'] ret].
    cbn [fst] in IH |- *. destruct IH as (Hm' & Hb' & Hi').
    rewrite Hm', Hb'. auto.
Qed.

(** When [connect] returns, the client is disconnected. *)
Lemma connect_returns_disconnected (script : list attempt) (c : client) :
  (reconnect_attempts c < max_reconnect_attempts c \/ is_connected c = false) ->
  (connect script c).2 = true ->
  is_connected (connect script c).1.1 = false.
Proof.
  revert c. induction script as [|o rest IH]; intros c Hc;
    rewrite connect_unfold.
  - destruct (Nat.ltb_spec (reconnect_attempts c) (max_reconnect_attempts c));
      cbn [fst snd]; [discriminate|]. intros _. destruct Hc; [lia|assumption].
  - destruct (Nat.ltb_spec (reconnect_attempts c) (max_reconnect_attempts c))
      as [Hlt|Hge]; cbn [fst snd].
    2:{ intros _. destruct Hc; [lia|assumption]. }
    pose proof (connect_iter_break o c) as Hbrk.
    pose proof (connect_iter_exhausted o c Hlt) as Hex.
    pose proof (connect_iter_fields o c) as (Hm & _).
    destruct (connect_iter o c) as [[c1 evs] brk]. cbn [fst snd] in *.
    destruct brk; cbn [fst snd]; [auto|].
    specialize (IH c1).
    destruct (connect rest c1) as [[c2 evs'] ret]. cbn [fst snd] in *.
    apply IH. rewrite Hm.
    destruct (Nat.lt_ge_cases (reconnect_attempts c1) (max_reconnect_attempts c));
      [left; assumption|right; apply Hex; [reflexivity|assumption]].
Qed.

(** The consecutive failed attempts never outnumber the counter. *)
Lemma connect_no_attempt_after (script : list attempt) (c : client) (run : nat) :
  run <= reconnect_attempts c ->
  no_attempt_after (max_reconnect_attempts c) run
    (connects (connect script c).1.2) = true.
Proof.
  revert c run. induction script as [|o rest IH]; intros c run Hrun;
    rewrite connect_unfold.
  - destruct (_ <? _); reflexivity.
  - destruct (Nat.ltb_spec (reconnect_attempts c) (max_reconnect_attempts c))
      as [Hlt|Hge]; [|reflexivity].
    pose proof (connect_iter_attempts o c) as Ha.
    pose proof (connect_iter_connects o c) as Hcs.
    pose proof (connect_iter_breaks o c) as Hb.
    pose proof (connect_iter_fields o c) as (Hm & _).
    destruct (connect_iter o c) as [[c1 evs] brk]. cbn [fst snd] in *.
    assert (Hne : (run =? max_reconnect_attempts c) = false)
      by (apply Nat.eqb_neq; lia).
    destruct brk; cbn [fst snd].
    + rewrite Hcs. cbn [no_attempt_after]. rewrite Hne.
      destruct o as [| |? ?]; reflexivity.
    + specialize (IH c1).
      destruct (connect rest c1) as [[c2 evs'] ret]. cbn [fst snd] in *.
      rewrite connects_app, Hcs. cbn [app no_attempt_after]. rewrite Hne.
      rewrite <- Hm. apply IH. rewrite Ha.
      destruct o as [| |? []]; try discriminate; lia.
Qed.

Lemma no_attempt_after_run (m run : nat) (l1 l2 : list bool) :
  run <= m ->
  no_attempt_after m run (l1 ++ replicate m false ++ l2) = true ->
  l2 = [].
Proof.
  revert run. induction l1 as [|b l1 IH]; intros run Hrun H.
  - cbn [app] in H.
    assert (Hgen : forall k r, r + k = m -> r <= m ->
              no_attempt_after m r (replicate k false ++ l2) = true -> l2 = []).
    { clear. induction k as [|k IHk]; intros r Hr Hle H.
      - cbn in H. destruct l2 as [|b l2]; [reflexivity|].
        cbn in H. replace (r =? m) with true in H
          by (symmetry; apply Nat.eqb_eq; lia). discriminate.
      - cbn in H. destruct (Nat.eqb_spec r m); [discriminate|].
        apply (IHk (S r)); [lia|lia|exact H]. }
    destruct (Nat.eq_dec run 0) as [->|Hpos].
    + apply (Hgen m 0); [lia|lia|exact H].
    + exfalso. clear Hgen.
      assert (Hbad : forall k r, m < r + k -> r <= m ->
                no_attempt_after m r (replicate k false ++ l2) = false).
      { clear. induction k as [|k IHk]; intros r Hr Hle; [lia|].
        cbn. destruct (Nat.eqb_spec r m); [reflexivity|].
        apply IHk; lia. }
      rewrite (Hbad m run) in H; [discriminate|lia|lia].
  - cbn [app no_attempt_after] in H.
    destruct (Nat.eqb_spec run m); [discriminate|].
    apply (IH (if b then 0 else S run)); [destruct b; lia|exact H].
Qed.

Lemma connect_exhausted_returns (script : list attempt) (c : client) :
  max_reconnect_attempts c <= reconnect_attempts (connect script c).1.1 ->
  (connect script c).2 = true.
Proof.
  revert c. induction script as [|o rest IH]; intros c; rewrite connect_unfold.
  - destruct (Nat.ltb_spec (reconnect_attempts c) (max_reconnect_attempts c));
      cbn [fst snd]; [lia|reflexivity].
  - destruct (Nat.ltb_spec (reconnect_attempts c) (max_reconnect_attempts c));
      cbn [fst snd]; [|reflexivity].
    pose proof (connect_iter_fields o c) as (Hm & _).
    destruct (connect_iter o c) as [[c1 evs] brk]. cbn [fst snd] in *.
    destruct brk; cbn [fst snd]; [reflexivity|].
    specialize (IH c1).
    destruct (connect rest c1) as [[c2 evs'] ret]. cbn [fst snd] in *.
    rewrite Hm in IH. exact IH.
Qed.

(** C8.  For a client whose attempt limit is 5 and that is not both
    exhausted and flagged connected (as after [__init__]), run against any
    script of environment behaviours: the trace of [connect] never has a
    connection attempt after 5 consecutive failed ones; once the attempt
    counter has reached the limit [connect] has returned; and whenever
    [connect] returns the client is flagged disconnected.  In every pass
    of the loop, a [ConnectionClosed] raised by the connection attempt
    adds one to the counter and one raised after a successful connection
    leaves it at 1, the handler then sleeping
    [base_reconnect_delay * 2 ^ (attempts - 1)] seconds if the counter is
    below the limit and not at all otherwise; a successful connection
    sets the counter to 0 before anything else happens. *)
Theorem C8_reconnection (script : list attempt) (c : client) :
  max_reconnect_attempts c = 5 ->
  (reconnect_attempts c < max_reconnect_attempts c \/ is_connected c = false) ->
  (forall l1 l2,
     connects (connect script c).1.2 = l1 ++ replicate 5 false ++ l2 ->
     l2 = []) /\
  (5 <= reconnect_attempts (connect script c).1.1 ->
     (connect script c).2 = true) /\
  ((connect script c).2 = true ->
     is_connected (connect script c).1.1 = false) /\
  (forall o,
     let c1 := (connect_iter o c).1.1 in
     let evs := (connect_iter o c).1.2 in
     let backoff :=
       if reconnect_attempts c1 <? 5
       then [base_reconnect_delay c * 2 ^ (reconnect_attempts c1 - 1)]
       else [] in
     match o with
     | ConnectClosed =>
         reconnect_attempts c1 = reconnect_attempts c + 1 /\
         is_connected c1 = false /\ sleeps evs = backoff
     | Connected _ SessionClosed =>
         reconnect_attempts c1 = 1 /\
         is_connected c1 = false /\ sleeps evs = backoff
     | Connected _ SessionReturned =>
         reconnect_attempts c1 = 0 /\
         is_connected c1 = true /\ sleeps evs = []
     | Connected _ SessionError =>
         reconnect_attempts c1 = 0 /\
         is_connected c1 = false /\ sleeps evs = []
     | ConnectError =>
         reconnect_attempts c1 = reconnect_attempts c /\
         is_connected c1 = false /\ sleeps evs = []
     end).
Proof.
  intros Hmax Hstart. split; [|split; [|split]].
  - intros l1 l2 Htr.
    pose proof (connect_no_attempt_after script c 0 ltac:(lia)) as Hno.
    rewrite Htr, Hmax in Hno.
    exact (no_attempt_after_run 5 0 l1 l2 ltac:(lia) Hno).
  - intros Hex. apply connect_exhausted_returns. rewrite Hmax. exact Hex.
  - apply connect_returns_disconnected. exact Hstart.
  - intros o c1 evs backoff. subst c1 evs backoff.
    destruct c as [key sym agg0 ws conn mx base att]. cbn in Hmax. subst mx.
    destruct o as [| |agg []];
      unfold connect_iter, on_connection_closed, _subscribe, send;
      cbn -[Nat.ltb Nat.pow Nat.add Nat.sub Nat.mul].
    + destruct (att + 1 <? 5) eqn:E;
        cbn -[Nat.ltb Nat.pow Nat.add Nat.sub Nat.mul];
        rewrite ?E; repeat split.
    + auto.
    + auto.
    + auto.
    + auto.
Qed.

(** ** Switching the symbol *)

(** C9.  On a client that satisfies the class invariant (the connected
    flag is set only while a connection object is held): [switch_symbol]
    raises exactly when the client is not connected, and then it raises
    [RuntimeError] and leaves the whole client state as it was; when the
    client is connected and the new symbol is the tracked one it returns
    without any change; otherwise it returns after sending an unsubscribe
    for the old symbol and then a subscribe for the new one, with the
    tracked symbol updated and the aggregation engine replaced by a fresh,
    empty one, nothing else being changed.  The class invariant is
    kept. *)
Theorem C9_switch_symbol (c : client) (new_symbol : string) :
  client_inv c ->
  let c' := (switch_symbol new_symbol c).1 in
  let out := (switch_symbol new_symbol c).2 in
  ((exists e, out = Raise e) <-> is_connected c = false) /\
  (is_connected c = false ->
     out = Raise (RuntimeError "WebSocket not connected") /\ c' = c) /\
  (is_connected c = true -> new_symbol = symbol c ->
     out = Ok tt /\ c' = c) /\
  (is_connected c = true -> new_symbol <> symbol c ->
     out = Ok tt /\
     exists ws,
       websocket c = Some ws /\
       c' = mkClient (api_key c) new_symbol Aggregator.__init__
              (Some (mkWebSocket
                 (sent ws ++ [Unsubscribe (api_key c) (symbol c);
                              Subscribe (api_key c) new_symbol])))
              true (max_reconnect_attempts c) (base_reconnect_delay c)
              (reconnect_attempts c)) /\
  client_inv c'.
Proof.
  intros Hinv c' out. subst c' out. unfold client_inv in *.
  destruct c as [key sym agg ws conn mx base att].
  cbn [is_connected websocket symbol api_key max_reconnect_attempts
       base_reconnect_delay reconnect_attempts] in *.
  unfold switch_symbol.
  cbn [is_connected websocket symbol api_key].
  destruct conn.
  - destruct (Hinv eq_refl) as [w ->].
    rewrite bool_decide_eq_true_2 by (eexists; reflexivity).
    cbn [negb orb].
    case_bool_decide as Hsym.
    + subst new_symbol. cbn.
      split; [split; [intros [e He]; discriminate|discriminate]|].
      split; [discriminate|]. split; [auto|]. split; [congruence|].
      intros _. eexists. reflexivity.
    + assert (Htarget : (if bool_decide (new_symbol = "") then new_symbol
                         else new_symbol) = new_symbol)
        by (destruct (bool_decide _); reflexivity).
      unfold _unsubscribe, _subscribe, modify, send, mbind, M_bind.
      cbn [websocket api_key symbol set_websocket set_symbol set_aggregator
           sent is_connected max_reconnect_attempts base_reconnect_delay
           reconnect_attempts aggregator fst snd].
      rewrite Htarget, <- app_assoc. cbn [app].
      split; [split; [intros [e He]; discriminate|discriminate]|].
      split; [discriminate|]. split; [congruence|].
      split; [|intros _; eexists; reflexivity].
      intros _ _. split; [reflexivity|]. eexists. split; reflexivity.
  - cbn [negb orb]. cbn.
    split; [split; [reflexivity|intros _; eexists; reflexivity]|].
    split; [auto|]. split; [discriminate|]. split; [discriminate|].
    discriminate.
Qed.

End IngestionClient.

(** C8 at a fresh client whose first five connection attempts raise
    [ConnectionClosed]: the sixth scripted behaviour is never reached. *)
Lemma C8_witness :
  let c := WsClient.__init__ "key" "CME_MINI:MNQ1!" in
  let script := replicate 5 WsClient.ConnectClosed
                ++ [WsClient.Connected Aggregator.__init__ WsClient.SessionReturned] in
  WsClient.connects (WsClient.connect script c).1.2 = replicate 5 false /\
  WsClient.sleeps (WsClient.connect script c).1.2 = [1; 2; 4; 8]%nat /\
  (WsClient.connect script c).2 = true /\
  WsClient.is_connected (WsClient.connect script c).1.1 = false.
Proof.
  intros c script.
  destruct (C8_reconnection script c) as (Hrun & Hret & Hdisc & _).
  - reflexivity.
  - left. vm_compute. lia.
  - assert (Hc : WsClient.connects (WsClient.connect script c).1.2
                 = replicate 5 false) by (vm_compute; reflexivity).
    split; [exact Hc|]. split; [vm_compute; reflexivity|].
    assert (Hr : (WsClient.connect script c).2 = true).
    { apply Hret. vm_compute. lia. }
    split; [exact Hr|]. apply Hdisc. exact Hr.
Defined.

(** C9 at a connected client whose engine has seen seven bars. *)
Lemma C9_witness :
  let c := (WsClient.connect
              [WsClient.Connected (Samples.engine_with 7 []) WsClient.SessionReturned]
              (WsClient.__init__ "key" "CME_MINI:MNQ1!")).1.1 in
  WsClient.is_connected c = true /\
  WsClient.aggregator c = Samples.engine_with 7 [] /\
  (WsClient.switch_symbol "CME_MINI:ES1!" c).2 = Ok tt /\
  WsClient.symbol (WsClient.switch_symbol "CME_MINI:ES1!" c).1 = "CME_MINI:ES1!" /\
  WsClient.aggregator (WsClient.switch_symbol "CME_MINI:ES1!" c).1
    = Aggregator.__init__ /\
  WsClient.websocket (WsClient.switch_symbol "CME_MINI:ES1!" c).1
    = Some (WsClient.mkWebSocket
              [WsClient.Subscribe "key" "CME_MINI:MNQ1!";
               WsClient.Unsubscribe "key" "CME_MINI:MNQ1!";
               WsClient.Subscribe "key" "CME_MINI:ES1!"]).
Proof.
  intros c.
  assert (Hinv : Invariants.client_inv c).
  { intros _. eexists. reflexivity. }
  destruct (C9_switch_symbol c "CME_MINI:ES1!" Hinv)
    as (_ & _ & _ & Hswitch & _).
  destruct Hswitch as (Hout & ws & Hws & Hc'); [reflexivity|discriminate|].
  split; [reflexivity|]. split; [reflexivity|]. split; [exact Hout|].
  rewrite Hc'. cbn [WsClient.symbol WsClient.aggregator WsClient.websocket].
  split; [reflexivity|]. split; [reflexivity|].
  injection Hws as <-. reflexivity.
Defined.

(* ===================================================================== *)
(** * Further properties of the combine rule                              *)
(* ===================================================================== *)

Section CombineMore.

Import Aggregator Spec Invariants Props.

Lemma combined_cons (b : OHLCV) (rest : list OHLCV) :
  combined (b :: rest) =
  mkOHLCV (time b) (open b)
          (fold_left Z.max (high <$> rest) (high b))
          (fold_left Z.min (low <$> rest) (low b))
          (close (List.last rest b))
          (py_sum (volume <$> b :: rest)).
Proof. reflexivity. Qed.



Lemma sum_of_app (xs ys : list Z) : sum_of (xs ++ ys) = sum_of xs + sum_of ys.
Proof.
  unfold sum_of. induction xs as [|x xs IH]; [reflexivity|].
  cbn [app foldr]. rewrite IH. lia.
Qed.



(** X2.  Combining keeps bars well formed and encloses its inputs: if
    every bar of a non-empty sequence has its open and close between its
    low and high and a volume that is not negative, so has the combined
    bar; and the low and high of the combined bar enclose the low and
    high of every input bar. *)
Theorem X2_combine_well_formed (b : OHLCV) (rest : list OHLCV) :
  Forall well_formed (b :: rest) ->
  exists r,
    combine (b :: rest) = Ok r /\
    well_formed r /\
    (forall bar, bar ∈ b :: rest -> low r <= low bar /\ high bar <= high r).
Proof.
  intros Hwf.
  destruct (combine_cons b rest)
    as (r & Hr & fb & lb & Hfb & Hlb & Ht & Ho & Hhi & Hlo & Hc & Hv).
  exists r. split; [exact Hr|].
  assert (Henc : forall bar, bar ∈ b :: rest ->
                   low r <= low bar /\ high bar <= high r).
  { intros bar Hin. split.
    - apply (proj2 Hlo). apply list_elem_of_fmap. eauto.
    - apply (proj2 Hhi). apply list_elem_of_fmap. eauto. }
  split; [|exact Henc].
  injection Hfb as <-.
  assert (Hlast : lb ∈ b :: rest).
  { apply last_Some_elem_of. exact Hlb. }
  pose proof (proj1 (Forall_forall _ _) Hwf) as Hall.
  destruct (Hall b ltac:(left)) as (Hb1 & Hb2 & Hb3 & Hb4 & Hb5).
  destruct (Hall lb Hlast) as (Hl1 & Hl2 & Hl3 & Hl4 & Hl5).
  destruct (Henc b ltac:(left)) as [Hlob Hhib].
  destruct (Henc lb Hlast) as [Hlol Hhil].
  unfold well_formed. rewrite Ho, Hc, Hv.
  repeat split; try lia.
  clear -Hall. induction rest as [|c rest IH] in b, Hall |- *.
  - destruct (Hall b ltac:(left)) as (_ & _ & _ & _ & H).
    unfold sum_of. cbn. lia.
  - destruct (Hall b ltac:(left)) as (_ & _ & _ & _ & H).
    rewrite fmap_cons. unfold sum_of. cbn [foldr].
    assert (0 <= sum_of (volume <$> c :: rest)).
    { apply IH. intros bar Hin. apply Hall. right. exact Hin. }
    unfold sum_of in *. lia.
Qed.

End CombineMore.

(** X2 at two sample bars. *)
Lemma X2_witness :
  exists r,
    Aggregator.combine [Samples.minute_bar 1; Samples.minute_bar 2] = Ok r /\
    Props.well_formed r.
Proof.
  destruct (X2_combine_well_formed (Samples.minute_bar 1) [Samples.minute_bar 2])
    as (r & Hr & Hwf & _).
  - repeat constructor; vm_compute; discriminate.
  - exists r. split; [exact Hr|exact Hwf].
Defined.

(* ===================================================================== *)
(** * Further properties of the live engine                               *)
(* ===================================================================== *)

(** A literal key is not in a list of other literal keys. *)
Ltac no_such_key Hin :=
  repeat (apply elem_of_cons in Hin as [Hin|Hin]; [discriminate|]);
  inversion Hin.

(** A literal is in a list of literals. *)
Ltac literal_member :=
  first [apply list_elem_of_here
        |apply list_elem_of_further; literal_member].

Section LiveEngineMore.

Import Aggregator Spec Invariants Props.

Variable utc_offset : Z.

(** X3.  Whatever the engine state, the result of a successful
    [add_1m_bar] maps "1m" to the list holding the bar just fed, has no
    key outside the nine timeframe identifiers, and the call leaves the
    daily-bar list as it was or with one bar appended. *)
Theorem X3_result_keys (bar : OHLCV) (s s' : TimeframeAggregator)
    (r : gmap string (list OHLCV)) :
  add_1m_bar utc_offset bar s = Ok (s', r) ->
  r !! "1m" = Some [bar] /\
  (forall k, is_Some (r !! k) -> k ∈ timeframes) /\
  (_daily_bars s' = _daily_bars s \/
   exists daily_bar, _daily_bars s' = _daily_bars s ++ [daily_bar]).
Proof.
  intros H.
  destruct (add_1m_bar_inv _ _ _ _ _ H)
    as (res5 & buf & Hloop & _ & _ & Hcases).
  pose proof (foldM_intraday_frame _ _ _ _ Hloop) as Hk.
  assert (H1m : res5 !! "1m" = Some [bar]).
  { destruct (Hk "1m") as [->|[Hin _]]; [apply lookup_singleton_eq|].
    no_such_key Hin. }
  assert (Hkeys : forall k, is_Some (res5 !! k) -> k ∈ timeframes).
  { intros k [l Hl]. destruct (Hk k) as [E|[Hin _]].
    - rewrite E in Hl. apply lookup_singleton_Some in Hl as [<- _].
      unfold timeframes. left.
    - unfold timeframes. right.
      repeat (apply elem_of_cons in Hin as [->|Hin]; [literal_member|]).
      inversion Hin. }
  assert (Hins : forall (k0 : string) (v : list OHLCV)
                   (m : gmap string (list OHLCV)),
            k0 ∈ timeframes ->
            (forall k, is_Some (m !! k) -> k ∈ timeframes) ->
            forall k, is_Some (<[k0 := v]> m !! k) -> k ∈ timeframes).
  { intros k0 v m Hk0 Hm k Hs. destruct (decide (k0 = k)) as [<-|Hne].
    - exact Hk0.
    - rewrite lookup_insert_ne in Hs by exact Hne. auto. }
  assert (HD : "1D" ∈ timeframes) by (unfold timeframes; literal_member).
  assert (HW : "1W" ∈ timeframes) by (unfold timeframes; literal_member).
  assert (HM : "1M" ∈ timeframes) by (unfold timeframes; literal_member).
  destruct Hcases as [(_ & -> & Hdl)|(_ & d & m & _ & Hdl & _ & Hweek)].
  - split; [exact H1m|]. split; [exact Hkeys|]. left. exact Hdl.
  - destruct Hweek as [(_ & ->)|(_ & w & _ & ->)].
    + split; [repeat (rewrite lookup_insert_ne by discriminate); exact H1m|].
      split; [|right; eauto].
      apply Hins; [exact HM|]. apply Hins; [exact HD|exact Hkeys].
    + split; [repeat (rewrite lookup_insert_ne by discriminate); exact H1m|].
      split; [|right; eauto].
      apply Hins; [exact HM|]. apply Hins; [exact HW|].
      apply Hins; [exact HD|exact Hkeys].
Qed.





End LiveEngineMore.

(** X3 at the sixth sample bar of an engine. *)
Lemma X3_witness :
  exists s' r,
    Aggregator.add_1m_bar 0 (Samples.minute_bar 6) (Samples.engine_with 5 [])
      = Ok (s', r) /\
    r !! "1m" = Some [Samples.minute_bar 6].
Proof.
  set (s := Samples.engine_with 5 []).
  set (out := Aggregator.add_1m_bar 0 (Samples.minute_bar 6) s).
  assert (Hret : Samples.returned out = true) by (vm_compute; reflexivity).
  pose proof (returned_Ok out (s, ∅) Hret) as E.
  set (s' := (match out with Ok p => p | Raise _ => (s, ∅) end).1) in E.
  set (r := (match out with Ok p => p | Raise _ => (s, ∅) end).2) in E.
  clearbody s' r.
  destruct (X3_result_keys 0 _ _ _ _ E) as (H1m & _).
  exists s', r. split; [exact E|exact H1m].
Defined.

(* ===================================================================== *)
(** * Further properties of the historical batch aggregator               *)
(* ===================================================================== *)

Section Grouping.

Import Aggregator Spec Invariants Props.

Context {K : Type} `{EqDecision K}.
Variable key : OHLCV -> K.
Variable ltb : K -> K -> bool.

Hypothesis ltb_irrefl : forall a, ltb a a = false.
Hypothesis ltb_trans :
  forall a b c, ltb a b = true -> ltb b c = true -> ltb a c = true.
Hypothesis ltb_total : forall a b, a <> b -> ltb a b = true \/ ltb b a = true.








(** ** Sorting the items *)








(** ** Combining the groups *)




End Grouping.

Section HistoricalMore.

Import Aggregator Spec Invariants Props.

Variable utc_offset : Z.










Lemma volume_combined (bars : list OHLCV) :
  bars <> [] -> volume (combined bars) = total_volume bars.
Proof.
  intros Hne. destruct bars as [|b rest]; [congruence|].
  rewrite combined_cons. cbn [volume]. apply py_sum_spec.
Qed.







Lemma sum_chunks (bars : list OHLCV) (n q : nat) :
  sum_of ((fun k => total_volume (take n (drop (k * n) bars))) <$> seq 0 q)
  = total_volume (take (q * n) bars).
Proof.
  induction q as [|q IH]; [reflexivity|].
  rewrite seq_S, fmap_app, sum_of_app, IH. cbn [fmap list_fmap Nat.add].
  change (sum_of [total_volume (take n (drop (q * n) bars))])
    with (total_volume (take n (drop (q * n) bars)) + 0).
  replace (S q * n)%nat with (q * n + n)%nat by lia.
  rewrite <- take_take_drop. unfold total_volume.
  rewrite fmap_app, sum_of_app. lia.
Qed.

(** X8.  For the targets 15m, 30m, 1H, 4H and 1D with bar count [n] the
    batch function never raises and returns floor(len / n) bars; the
    [k]-th of them combines the input bars [k*n .. k*n + n - 1]; the
    len mod n trailing bars are dropped, so the returned volumes add up
    to the volume of the first n * floor(len / n) input bars. *)
Theorem X8_chunk_targets (bars_1m : list OHLCV) (timeframe : string) (n : nat) :
  (timeframe, n) ∈ chunk_targets ->
  exists out,
    aggregate_historical_1m_to_timeframe utc_offset bars_1m timeframe = Ok out /\
    length out = (length bars_1m / n)%nat /\
    (forall k bar, out !! k = Some bar ->
       let chunk := take n (drop (k * n) bars_1m) in
       length chunk = n /\ combine chunk = Ok bar /\ is_combine_of bar chunk) /\
    total_volume out = total_volume (take (length bars_1m / n * n) bars_1m).
Proof.
  intros Hin.
  assert (Hn : (1 <= n)%nat).
  { unfold chunk_targets in Hin.
    repeat (apply elem_of_cons in Hin as [Hin|Hin]; [injection Hin as -> ->; lia|]).
    inversion Hin. }
  rewrite (historical_chunks utc_offset bars_1m timeframe n Hin).
  eexists. split; [reflexivity|].
  assert (Hchunk : forall k, (k < length bars_1m / n)%nat ->
            length (take n (drop (k * n) bars_1m)) = n).
  { intros k Hk. rewrite length_take, length_drop.
    assert (S k * n <= length bars_1m)%nat; [|lia].
    transitivity (length bars_1m / n * n)%nat.
    - apply Nat.mul_le_mono_r. lia.
    - rewrite Nat.mul_comm. apply Nat.Div0.mul_div_le. }
  split; [|split].
  - rewrite length_fmap, length_seq. reflexivity.
  - intros k bar Hk. apply list_lookup_fmap_Some in Hk as (i & -> & Hi).
    apply lookup_seq in Hi as [-> Hlt]. rewrite Nat.add_0_l in *.
    cbn zeta. split; [apply Hchunk; exact Hlt|].
    assert (Hne : take n (drop (k * n) bars_1m) <> []).
    { intros E. apply (f_equal length) in E. rewrite Hchunk in E by exact Hlt.
      simpl in E. lia. }
    destruct (take n (drop (k * n) bars_1m)) as [|b rest] eqn:E; [congruence|].
    unfold combined. destruct (combine_cons b rest) as (r & -> & Hr).
    split; [reflexivity|exact Hr].
  - rewrite <- sum_chunks. unfold total_volume at 1.
    rewrite <- list_fmap_compose. f_equal.
    apply Forall_fmap_ext, Forall_forall. intros k Hk.
    apply elem_of_seq in Hk. cbn. apply volume_combined.
    intros E. apply (f_equal length) in E. rewrite Hchunk in E by lia.
    simpl in E. lia.
Qed.

Lemma monthly_target_raises (bars_1m : list OHLCV) :
  aggregate_historical_1m_to_timeframe utc_offset bars_1m "1M"
  = Raise (ValueError "Cannot aggregate to 1M (variable bars)").
Proof. reflexivity. Qed.



End HistoricalMore.

(** X8 on 32 sample bars and the target 15m: two bars. *)
Lemma X8_witness :
  exists out,
    Aggregator.aggregate_historical_1m_to_timeframe 0 (Samples.minute_bars 32) "15m"
      = Ok out /\
    length out = 2%nat.
Proof.
  destruct (X8_chunk_targets 0 (Samples.minute_bars 32) "15m" 15)
    as (out & Hout & Hlen & _).
  - unfold Props.chunk_targets. literal_member.
  - exists out. split; [exact Hout|]. rewrite Hlen. reflexivity.
Defined.

(* ===================================================================== *)
(** * Further properties of the rate limiter                              *)
(* ===================================================================== *)

Section TokenBucketMore.

Import RateLimiter Props.

Local Open Scope Q_scope.

Lemma inject_Z_nonzero (z : Z) : z <> 0%Z -> ~ inject_Z z == 0.
Proof.
  intros Hz E. apply Hz. unfold Qeq, inject_Z in E.
  cbn [Qnum Qden] in E. lia.
Qed.

Lemma truediv_Ok (a : Q) (z : Z) :
  z <> 0%Z -> truediv a (inject_Z z) = Ok (a / inject_Z z).
Proof.
  intros Hz. unfold truediv.
  destruct (Qeq_bool (inject_Z z) 0) eqn:E; [|reflexivity].
  apply Qeq_bool_eq in E. destruct (inject_Z_nonzero z Hz E).
Qed.

Lemma inject_Z_ge_1 (z : Z) : (1 <= z)%Z -> 1 <= inject_Z z.
Proof. intros Hz. change 1 with (inject_Z 1). rewrite <- Zle_Qle. exact Hz. Qed.

Lemma inject_Z_minus_1 (z : Z) : inject_Z (z - 1) == inject_Z z - 1.
Proof. unfold Z.sub. rewrite inject_Z_plus, inject_Z_opp. reflexivity. Qed.

(** What one call does, in terms of the refilled token count. *)
Lemma wait_if_needed_cases (self : RateLimiter) (w : world) :
  (1 <= rate_limit self)%Z -> (1 <= period self)%Z ->
  let a := Qmin (inject_Z (rate_limit self))
                (tokens self + (now w - last_update self)
                               * (inject_Z (rate_limit self) / inject_Z (period self))) in
  get_available_tokens self w = Ok a /\
  wait_if_needed self w =
  Ok (if Qlt_le_dec a 1
      then (mkLimiter (rate_limit self) (period self)
                      (inject_Z (rate_limit self) - 1)
                      (now w + 1 / inject_Z (rate_limit self) * inject_Z (period self)),
            time_sleep (1 / inject_Z (rate_limit self) * inject_Z (period self)) w)
      else (mkLimiter (rate_limit self) (period self) (a - 1) (now w), w)).
Proof.
  intros Hn Hp a. unfold get_available_tokens, wait_if_needed, time_time.
  rewrite !truediv_Ok by lia. cbn [mbind result_bind]. fold a.
  split; [reflexivity|].
  destruct (Qlt_le_dec a 1); reflexivity.
Qed.

Lemma wait_if_needed_returns (self : RateLimiter) (w : world) :
  (1 <= rate_limit self)%Z -> (1 <= period self)%Z ->
  exists self' w',
    wait_if_needed self w = Ok (self', w') /\
    rate_limit self' = rate_limit self /\ period self' = period self.
Proof.
  intros Hn Hp. destruct (wait_if_needed_cases self w Hn Hp) as [_ Hw].
  cbv zeta in Hw. rewrite Hw.
  destruct (Qlt_le_dec _ 1); eexists _, _; repeat split.
Qed.

(** X10.  One call of [wait_if_needed] on a limiter with
    [rate_limit >= 1] and [period >= 1], in any state and at any clock
    reading: the call returns; it sleeps exactly when the count that
    [get_available_tokens] reports is below 1, then once, for
    [(1 / rate_limit) * period] seconds, and leaves [rate_limit - 1]
    tokens; otherwise it does not sleep and leaves one token less than
    that count.  Either way the tokens left are between 0 and
    [rate_limit - 1], the settings are unchanged and [last_update] is the
    clock reading at the end of the call. *)
Theorem X10_wait_if_needed_step (self : RateLimiter) (w : world) :
  (1 <= rate_limit self)%Z -> (1 <= period self)%Z ->
  exists a self' w',
    get_available_tokens self w = Ok a /\
    wait_if_needed self w = Ok (self', w') /\
    rate_limit self' = rate_limit self /\
    period self' = period self /\
    last_update self' = now w' /\
    0 <= tokens self' /\ tokens self' <= inject_Z (rate_limit self) - 1 /\
    (if Qlt_le_dec a 1
     then w' = time_sleep (1 / inject_Z (rate_limit self) * inject_Z (period self)) w
          /\ tokens self' = inject_Z (rate_limit self) - 1
     else w' = w /\ tokens self' = a - 1).
Proof.
  intros Hn Hp. destruct (wait_if_needed_cases self w Hn Hp) as [Ha Hw].
  cbv zeta in Ha, Hw.
  set (a := Qmin _ _) in Ha, Hw.
  pose proof (inject_Z_ge_1 _ Hn) as Hn'.
  exists a. destruct (Qlt_le_dec a 1) as [Hlt|Hge].
  - eexists _, _. split; [exact Ha|]. split; [exact Hw|].
    cbn [rate_limit period tokens last_update now time_sleep].
    repeat split; lra.
  - eexists _, _. split; [exact Ha|]. split; [exact Hw|].
    cbn [rate_limit period tokens last_update now].
    repeat split; try lra.
    pose proof (Q.le_min_l (inject_Z (rate_limit self))
                  (tokens self + (now w - last_update self)
                     * (inject_Z (rate_limit self) / inject_Z (period self)))) as Hmin.
    fold a in Hmin. lra.
Qed.

Lemma wait_if_needed_admits_gen (n p : Z) (self : RateLimiter) (w : world) :
  (1 <= n)%Z -> (1 <= p)%Z ->
  fresh n p self w -> 1 <= tokens self -> tokens self <= inject_Z n ->
  exists self',
    wait_if_needed self w = Ok (self', w) /\
    fresh n p self' w /\ tokens self' == tokens self - 1.
Proof.
  intros Hn Hp (Hrl & Hpe & Hlu) Hlo Hhi.
  destruct (wait_if_needed_cases self w) as [_ Hw]; [lia..|].
  cbv zeta in Hw. rewrite Hrl, Hpe, Hlu in Hw.
  set (rate := inject_Z n / inject_Z p) in Hw.
  assert (Hadd : tokens self + (now w - now w) * rate == tokens self) by ring.
  pose proof (inject_Z_ge_1 _ Hn) as Hn'.
  destruct (Qlt_le_dec _ 1) as [Hlt|Hge].
  - exfalso.
    assert (1 <= Qmin (inject_Z n) (tokens self + (now w - now w) * rate)).
    { apply Q.min_glb; [exact Hn'|]. rewrite Hadd. exact Hlo. }
    lra.
  - eexists. split; [exact Hw|]. split; [repeat split|].
    cbn [tokens]. rewrite Q.min_r; [rewrite Hadd; reflexivity|].
    rewrite Hadd. exact Hhi.
Qed.

Lemma wait_if_needed_blocks_gen (n p : Z) (self : RateLimiter) (w : world) :
  (1 <= n)%Z -> (1 <= p)%Z ->
  fresh n p self w -> tokens self < 1 ->
  exists self',
    wait_if_needed self w
      = Ok (self', time_sleep (1 / inject_Z n * inject_Z p) w) /\
    fresh n p self' (time_sleep (1 / inject_Z n * inject_Z p) w) /\
    tokens self' == inject_Z n - 1.
Proof.
  intros Hn Hp (Hrl & Hpe & Hlu) Hlo.
  destruct (wait_if_needed_cases self w) as [_ Hw]; [lia..|].
  cbv zeta in Hw. rewrite Hrl, Hpe, Hlu in Hw.
  set (rate := inject_Z n / inject_Z p) in Hw.
  assert (Hadd : tokens self + (now w - now w) * rate == tokens self) by ring.
  destruct (Qlt_le_dec _ 1) as [Hlt|Hge].
  - eexists. split; [exact Hw|]. split; [repeat split|reflexivity].
  - exfalso.
    pose proof (Q.le_min_r (inject_Z n) (tokens self + (now w - now w) * rate)).
    lra.
Qed.

Lemma acquire_n_admits_gen (n p : Z) (k : nat) (self : RateLimiter) (w : world) :
  (1 <= n)%Z -> (1 <= p)%Z ->
  fresh n p self w ->
  inject_Z (Z.of_nat k) <= tokens self -> tokens self <= inject_Z n ->
  exists self',
    acquire_n k self w = Ok (self', w) /\
    fresh n p self' w /\
    tokens self' == tokens self - inject_Z (Z.of_nat k).
Proof.
  intros Hn Hp. revert self. induction k as [|k IH]; intros self Hfresh Hlo Hhi.
  - exists self. split; [reflexivity|]. split; [exact Hfresh|].
    cbn. ring.
  - rewrite Nat2Z.inj_succ in Hlo |- *. unfold Z.succ in Hlo |- *.
    rewrite inject_Z_plus in Hlo |- *.
    assert (H0 : 0 <= inject_Z (Z.of_nat k)).
    { change 0 with (inject_Z 0). rewrite <- Zle_Qle. lia. }
    change (inject_Z 1) with 1 in Hlo |- *.
    destruct (wait_if_needed_admits_gen n p self w Hn Hp Hfresh)
      as (self1 & E1 & Hf1 & Ht1); [lra|exact Hhi|].
    destruct (IH self1 Hf1) as (self' & E' & Hf' & Ht');
      [rewrite Ht1; lra|rewrite Ht1; lra|].
    exists self'. split; [|split; [exact Hf'|]].
    + cbn [acquire_n]. rewrite E1. exact E'.
    + rewrite Ht', Ht1. ring.
Qed.

Lemma acquire_n_app (a b : nat) (self : RateLimiter) (w : world) :
  acquire_n (a + b) self w =
  ('(self', w') ← acquire_n a self w; acquire_n b self' w').
Proof.
  revert self w. induction a as [|a IH]; intros self w; [reflexivity|].
  cbn [acquire_n Nat.add].
  destruct (wait_if_needed self w) as [[self1 w1]|]; [|reflexivity].
  cbn [mbind result_bind]. apply IH.
Qed.

(** X11.  The refill after a wait is a full bucket.  From a new limiter
    for [n >= 1] requests per [p >= 1] seconds, [2 * n] calls in a row
    all return, with a single sleep of [p / n] seconds between the
    [n]-th and the [n+1]-th: the limiter admits [2 * n] requests within
    [p / n] seconds.  (For 25 per 60 seconds: 50 requests in 2.4
    seconds.) *)
Theorem X11_full_refill_after_one_wait (n p : Z) (t0 : Q) :
  (1 <= n)%Z -> (1 <= p)%Z ->
  exists self d,
    acquire_n (Z.to_nat (2 * n)) (__init__ n p (mkWorld t0 [])) (mkWorld t0 [])
      = Ok (self, mkWorld (t0 + d) [d]) /\
    d == inject_Z p / inject_Z n /\
    tokens self == 0.
Proof.
  intros Hn Hp. set (w0 := mkWorld t0 []).
  pose proof (inject_Z_ge_1 _ Hn) as Hn'.
  destruct (acquire_n_admits_gen n p (Z.to_nat n) (__init__ n p w0) w0 Hn Hp)
    as (self1 & E1 & Hf1 & Ht1).
  { repeat split. }
  { unfold __init__. cbn [tokens]. rewrite Z2Nat.id by lia. apply Qle_refl. }
  { unfold __init__. cbn [tokens]. apply Qle_refl. }
  unfold __init__ in Ht1. cbn [tokens] in Ht1. rewrite Z2Nat.id in Ht1 by lia.
  destruct (wait_if_needed_blocks_gen n p self1 w0 Hn Hp Hf1)
    as (self2 & E2 & Hf2 & Ht2); [lra|].
  set (d := 1 / inject_Z n * inject_Z p) in E2, Hf2.
  destruct (acquire_n_admits_gen n p (Z.to_nat (n - 1)) self2 (time_sleep d w0)
              Hn Hp Hf2) as (self3 & E3 & Hf3 & Ht3).
  { rewrite Z2Nat.id by lia. rewrite Ht2, inject_Z_minus_1. lra. }
  { lra. }
  rewrite Z2Nat.id in Ht3 by lia.
  exists self3, d. split; [|split].
  - replace (Z.to_nat (2 * n)) with (Z.to_nat n + (1 + Z.to_nat (n - 1)))%nat by lia.
    rewrite acquire_n_app, E1. cbn [mbind result_bind].
    rewrite acquire_n_app. cbn [acquire_n]. rewrite E2. cbn [mbind result_bind].
    exact E3.
  - unfold d. field. apply inject_Z_nonzero. lia.
  - rewrite Ht3, Ht2, inject_Z_minus_1. ring.
Qed.

(** X12.  Neither setting is validated.  A limiter whose period is 0
    raises [ZeroDivisionError] in [wait_if_needed] and in
    [get_available_tokens]; a limiter whose rate limit is 0 raises
    [ZeroDivisionError] in every call of [wait_if_needed], whatever its
    period, its state and the clock. *)
Theorem X12_zero_settings_raise (n p : Z) (tk lu : Q) (w : world) :
  wait_if_needed (mkLimiter n 0 tk lu) w = Raise ZeroDivisionError /\
  get_available_tokens (mkLimiter n 0 tk lu) w = Raise ZeroDivisionError /\
  wait_if_needed (mkLimiter 0 p tk lu) w = Raise ZeroDivisionError /\
  wait_if_needed (__init__ 0 p w) w = Raise ZeroDivisionError.
Proof.
  assert (Hzero : forall tk' lu',
            wait_if_needed (mkLimiter 0 p tk' lu') w = Raise ZeroDivisionError).
  { intros tk' lu'. unfold wait_if_needed.
    cbn [rate_limit period tokens last_update].
    destruct (truediv (inject_Z 0) (inject_Z p)) as [rate|e] eqn:E.
    - cbn [mbind result_bind].
      destruct (Qlt_le_dec _ 1) as [Hlt|Hge]; [reflexivity|].
      exfalso.
      pose proof (Q.le_min_l (inject_Z 0)
                    (tk' + (time_time w - lu') * rate)) as Hmin.
      change (inject_Z 0) with 0 in Hmin, Hge. lra.
    - unfold truediv in E. destruct (Qeq_bool _ _); [|discriminate].
      injection E as <-. reflexivity. }
  split; [reflexivity|]. split; [reflexivity|]. split; [apply Hzero|].
  apply Hzero.
Qed.

(** X13.  [reset] gives a full bucket: whatever the state before, the
    next [rate_limit] calls in a row return without sleeping, and leave
    no token. *)
Theorem X13_reset_refills (self : RateLimiter) (w : world) :
  (1 <= rate_limit self)%Z -> (1 <= period self)%Z ->
  exists self' a,
    acquire_n (Z.to_nat (rate_limit self)) (reset self w) w = Ok (self', w) /\
    tokens self' == 0 /\
    get_available_tokens (reset self w) w = Ok a /\
    a == inject_Z (rate_limit self).
Proof.
  intros Hn Hp.
  destruct (acquire_n_admits_gen (rate_limit self) (period self)
              (Z.to_nat (rate_limit self)) (reset self w) w Hn Hp)
    as (self' & E & _ & Ht).
  { repeat split. }
  { unfold reset. cbn [tokens]. rewrite Z2Nat.id by lia. apply Qle_refl. }
  { unfold reset. cbn [tokens]. apply Qle_refl. }
  exists self'. eexists. split; [exact E|]. split; [|split].
  - rewrite Ht. unfold reset. cbn [tokens]. rewrite Z2Nat.id by lia. ring.
  - unfold get_available_tokens, reset, time_time.
    cbn [rate_limit period tokens last_update].
    rewrite truediv_Ok by lia. cbn [mbind result_bind]. reflexivity.
  - apply Q.min_l. set (rate := _ / _).
    assert (E0 : inject_Z (rate_limit self) + (now w - now w) * rate
                 == inject_Z (rate_limit self)) by ring.
    rewrite E0. apply Qle_refl.
Qed.


End TokenBucketMore.

(** X10, X11, X13 and X14 on a limiter for 25 requests per 60 seconds. *)
Lemma X10_witness :
  exists a self' w',
    RateLimiter.get_available_tokens
      (RateLimiter.mkLimiter 25 60 0 0) (RateLimiter.mkWorld 1 []) = Ok a /\
    RateLimiter.wait_if_needed
      (RateLimiter.mkLimiter 25 60 0 0) (RateLimiter.mkWorld 1 []) = Ok (self', w') /\
    (0 <= RateLimiter.tokens self')%Q.
Proof.
  destruct (X10_wait_if_needed_step
              (RateLimiter.mkLimiter 25 60 0 0) (RateLimiter.mkWorld 1 []))
    as (a & self' & w' & Ha & Hw & _ & _ & _ & H0 & _).
  - cbn. lia.
  - cbn. lia.
  - exists a, self', w'. auto.
Defined.

Lemma X11_witness :
  exists self d,
    RateLimiter.acquire_n 50
      (RateLimiter.__init__ 25 60 (RateLimiter.mkWorld 0 []))
      (RateLimiter.mkWorld 0 [])
    = Ok (self, RateLimiter.mkWorld (0 + d) [d]) /\
    (d == 60 / 25)%Q.
Proof.
  destruct (X11_full_refill_after_one_wait 25 60 0%Q) as (self & d & E & Hd & _).
  - lia.
  - lia.
  - exists self, d. split; [exact E|exact Hd].
Defined.

Lemma X13_witness :
  exists self',
    RateLimiter.acquire_n 25
      (RateLimiter.reset (RateLimiter.mkLimiter 25 60 0 0) (RateLimiter.mkWorld 1 []))
      (RateLimiter.mkWorld 1 [])
    = Ok (self', RateLimiter.mkWorld 1 []).
Proof.
  destruct (X13_reset_refills
              (RateLimiter.mkLimiter 25 60 0 0) (RateLimiter.mkWorld 1 []))
    as (self' & a & E & _).
  - cbn. lia.
  - cbn. lia.
  - exists self'. exact E.
Defined.


(* ===================================================================== *)
(** * Further properties of the data cache and of bar dictionaries        *)
(* ===================================================================== *)

Section DataCacheMore.

Import Cache Props.

Lemma run_ops_snoc (ops : list cache_op) (op : cache_op) (self : DataCache) :
  run_ops (ops ++ [op]) self = run_op op (run_ops ops self).
Proof. unfold run_ops. rewrite fold_left_app. reflexivity. Qed.

Lemma run_op_counters (op : cache_op) (self : DataCache) :
  (_cache_hits self <= _cache_hits (run_op op self) /\
   _cache_misses self <= _cache_misses (run_op op self)) /\
  _cache_hits (run_op op self) + _cache_misses (run_op op self) =
  _cache_hits self + _cache_misses self + (if is_get op then 1 else 0).
Proof.
  destruct op as [s t|s t bars|s t| |]; cbn [run_op is_get].
  - unfold get. destruct (_cache self !! (s, t)); cbn; lia.
  - cbn. lia.
  - lia.
  - cbn. lia.
  - lia.
Qed.

Lemma run_ops_counters (ops : list cache_op) (self : DataCache) :
  (_cache_hits self <= _cache_hits (run_ops ops self) /\
   _cache_misses self <= _cache_misses (run_ops ops self)) /\
  _cache_hits (run_ops ops self) + _cache_misses (run_ops ops self) =
  _cache_hits self + _cache_misses self
  + Z.of_nat (length (filter (fun op => is_get op = true) ops)).
Proof.
  induction ops as [|op ops IH] using rev_ind.
  - cbn. lia.
  - rewrite run_ops_snoc, filter_app, length_app.
    destruct (run_op_counters op (run_ops ops self)) as [[Hh Hm] Hsum].
    destruct IH as [[IHh IHm] IHsum].
    rewrite filter_cons, filter_nil.
    destruct (is_get op); cbn [decide_rel]; rewrite ?decide_True by reflexivity;
      rewrite ?decide_False by discriminate; cbn [length]; lia.
Qed.

Local Open Scope Q_scope.

Lemma round2_range (x : Q) (lo hi : Z) :
  inject_Z lo <= x -> x <= inject_Z hi ->
  inject_Z lo <= round2 x /\ round2 x <= inject_Z hi.
Proof.
  intros Hlo Hhi. destruct (round2_nearest x) as ((n & Hn) & Hnlo & Hnhi).
  rewrite Hn in *.
  assert (Hdiv : inject_Z n / 100 == inject_Z n * (1 # 100)) by reflexivity.
  assert (H200 : 1 / 200 == 1 # 200) by reflexivity.
  rewrite Hdiv, H200 in *.
  assert (H1 : (100 * lo - 1 < n)%Z).
  { rewrite Zlt_Qlt. unfold Z.sub. rewrite inject_Z_plus, inject_Z_mult, inject_Z_opp.
    change (inject_Z 100) with 100. change (inject_Z 1) with 1. lra. }
  assert (H2 : (n < 100 * hi + 1)%Z).
  { rewrite Zlt_Qlt. rewrite inject_Z_plus, inject_Z_mult.
    change (inject_Z 100) with 100. change (inject_Z 1) with 1. lra. }
  assert (H3 : (100 * lo <= n)%Z) by lia.
  assert (H4 : (n <= 100 * hi)%Z) by lia.
  rewrite Zle_Qle, inject_Z_mult in H3, H4. change (inject_Z 100) with 100 in H3, H4.
  split; lra.
Qed.

Lemma hit_rate_range (self : DataCache) :
  (0 <= _cache_hits self)%Z -> (0 <= _cache_misses self)%Z ->
  0 <= hit_rate self /\ hit_rate self <= 100.
Proof.
  intros Hh Hm. unfold hit_rate.
  destruct (Z.ltb_spec 0 (_cache_hits self + _cache_misses self)) as [Hpos|Hz].
  - set (h := _cache_hits self) in *. set (m := _cache_misses self) in *.
    assert (Ht : 0 < inject_Z (h + m)).
    { change 0 with (inject_Z 0). rewrite <- Zlt_Qlt. exact Hpos. }
    assert (Hh' : 0 <= inject_Z h).
    { change 0 with (inject_Z 0). rewrite <- Zle_Qle. exact Hh. }
    assert (Hle : inject_Z h <= inject_Z (h + m)).
    { rewrite <- Zle_Qle. lia. }
    assert (H0 : 0 <= inject_Z h / inject_Z (h + m)).
    { apply Qle_shift_div_l; [exact Ht|]. lra. }
    assert (H1 : inject_Z h / inject_Z (h + m) <= 1).
    { apply Qle_shift_div_r; [exact Ht|]. lra. }
    split; lra.
  - split; lra.
Qed.

(** X15.  The counters of a cache account for its reads.  After any run
    of [get], [set], [has], [clear] and [get_stats] calls on a new cache,
    hits plus misses is the number of [get] calls of the run (no other
    call counts, and [clear] does not reset the counters), and the hit
    rate that [get_stats] reports lies between 0 and 100. *)
Theorem X15_cache_accounting (ops : list cache_op) :
  let c := run_ops ops Cache.__init__ in
  (0 <= _cache_hits c)%Z /\ (0 <= _cache_misses c)%Z /\
  (_cache_hits c + _cache_misses c
   = Z.of_nat (length (filter (fun op => is_get op = true) ops)))%Z /\
  cache_hits (get_stats c) = _cache_hits c /\
  cache_misses (get_stats c) = _cache_misses c /\
  0 <= hit_rate_percent (get_stats c) /\ hit_rate_percent (get_stats c) <= 100.
Proof.
  intros c. destruct (run_ops_counters ops Cache.__init__) as [[Hh Hm] Hsum].
  fold c in Hh, Hm, Hsum. cbn [Cache.__init__ _cache_hits _cache_misses] in *.
  split; [exact Hh|]. split; [exact Hm|]. split; [lia|].
  split; [reflexivity|]. split; [reflexivity|].
  destruct (hit_rate_range c Hh Hm) as [H0 H100].
  unfold get_stats. cbn [hit_rate_percent].
  apply (round2_range (hit_rate c) 0 100); assumption.
Qed.

Local Close Scope Q_scope.

(** X16.  The cache is a map keyed by the (symbol, timeframe) pair.
    [has] answers as [get] would, without counting; a [set] does not
    change what is stored under another pair; a second [set] of a pair
    replaces the first; [set] adds one to the number of keys when the
    pair was absent and leaves it otherwise; after [clear] nothing is
    stored, while the counters are kept. *)
Theorem X16_cache_is_a_map (self : DataCache) (symbol timeframe : string)
    (bars : list OHLCV) :
  (forall s t, has s t self = true <-> (get s t self).2 <> None) /\
  (forall s t, (s, t) <> (symbol, timeframe) ->
     (get s t (set symbol timeframe bars self)).2 = (get s t self).2 /\
     has s t (set symbol timeframe bars self) = has s t self) /\
  (forall bars', set symbol timeframe bars' (set symbol timeframe bars self)
                 = set symbol timeframe bars' self) /\
  total_keys (get_stats (set symbol timeframe bars self))
    = (if has symbol timeframe self then total_keys (get_stats self)
       else S (total_keys (get_stats self))) /\
  (forall s t, has s t (clear self) = false) /\
  total_keys (get_stats (clear self)) = 0%nat /\
  _cache_hits (clear self) = _cache_hits self /\
  _cache_misses (clear self) = _cache_misses self.
Proof.
  split; [|split; [|split; [|split; [|split; [|split; [|split]]]]]].
  - intros s t. unfold has, get.
    destruct (_cache self !! (s, t)) as [v|] eqn:E; cbn [snd].
    + rewrite bool_decide_eq_true. split; [discriminate|eauto].
    + split; [|congruence]. intros H. apply bool_decide_eq_true in H.
      destruct H as [v Hv]. discriminate.
  - intros s t Hne. unfold has, get, set. cbn [_cache].
    rewrite lookup_insert_ne by congruence.
    split; [|reflexivity].
    destruct (_cache self !! (s, t)); reflexivity.
  - intros bars'. unfold set. cbn [_cache _cache_hits _cache_misses].
    rewrite insert_insert_eq. reflexivity.
  - unfold get_stats, set, has. cbn [total_keys _cache].
    destruct (_cache self !! (symbol, timeframe)) as [v|] eqn:E.
    + rewrite bool_decide_eq_true_2 by eauto.
      rewrite map_size_insert_Some by eauto. reflexivity.
    + rewrite bool_decide_eq_false_2
        by (intros [v Hv]; discriminate).
      rewrite map_size_insert_None by exact E. reflexivity.
  - intros s t. unfold has, clear. cbn [_cache].
    apply bool_decide_eq_false_2. rewrite lookup_empty. intros [v Hv]. discriminate.
  - unfold get_stats, clear. cbn [total_keys _cache]. apply map_size_empty.
  - reflexivity.
  - reflexivity.
Qed.

End DataCacheMore.

Section BarDictionaries.

Import BarDict.

Lemma from_dict_Ok (data : gmap string Z) (bar : OHLCV) :
  from_dict data = Ok bar <->
  data !! "time" = Some (time bar) /\ data !! "open" = Some (open bar) /\
  data !! "high" = Some (high bar) /\ data !! "low" = Some (low bar) /\
  data !! "close" = Some (close bar) /\ data !! "volume" = Some (volume bar).
Proof.
  unfold from_dict, getitem.
  destruct (data !! "time") as [t|]; cbn [mbind result_bind];
    [|split; [discriminate|intros (H & _); discriminate]].
  destruct (data !! "open") as [o|]; cbn [mbind result_bind];
    [|split; [discriminate|intros (_ & H & _); discriminate]].
  destruct (data !! "high") as [h|]; cbn [mbind result_bind];
    [|split; [discriminate|intros (_ & _ & H & _); discriminate]].
  destruct (data !! "low") as [l|]; cbn [mbind result_bind];
    [|split; [discriminate|intros (_ & _ & _ & H & _); discriminate]].
  destruct (data !! "close") as [c|]; cbn [mbind result_bind];
    [|split; [discriminate|intros (_ & _ & _ & _ & H & _); discriminate]].
  destruct (data !! "volume") as [v|]; cbn [mbind result_bind];
    [|split; [discriminate|intros (_ & _ & _ & _ & _ & H); discriminate]].
  split.
  - intros H. injection H as <-. cbn. auto 10.
  - destruct bar as [t' o' h' l' c' v']. cbn.
    intros (? & ? & ? & ? & ? & ?). congruence.
Qed.

Lemma from_dict_Raise (data : gmap string Z) (e : exn) :
  from_dict data = Raise e ->
  exists k, e = KeyError k /\
            k ∈ ["time"; "open"; "high"; "low"; "close"; "volume"] /\
            data !! k = None.
Proof.
  unfold from_dict, getitem.
  destruct (data !! "time") as [t|] eqn:Et; cbn [mbind result_bind];
    [|intros H; injection H as <-; eexists; split; [reflexivity|];
      split; [literal_member|exact Et]].
  destruct (data !! "open") as [o|] eqn:Eo; cbn [mbind result_bind];
    [|intros H; injection H as <-; eexists; split; [reflexivity|];
      split; [literal_member|exact Eo]].
  destruct (data !! "high") as [h|] eqn:Eh; cbn [mbind result_bind];
    [|intros H; injection H as <-; eexists; split; [reflexivity|];
      split; [literal_member|exact Eh]].
  destruct (data !! "low") as [l|] eqn:El; cbn [mbind result_bind];
    [|intros H; injection H as <-; eexists; split; [reflexivity|];
      split; [literal_member|exact El]].
  destruct (data !! "close") as [c|] eqn:Ec; cbn [mbind result_bind];
    [|intros H; injection H as <-; eexists; split; [reflexivity|];
      split; [literal_member|exact Ec]].
  destruct (data !! "volume") as [v|] eqn:Ev; cbn [mbind result_bind];
    [|intros H; injection H as <-; eexists; split; [reflexivity|];
      split; [literal_member|exact Ev]].
  discriminate.
Qed.

Lemma from_dict_missing (data : gmap string Z) (k : string) :
  k ∈ ["time"; "open"; "high"; "low"; "close"; "volume"] ->
  data !! k = None ->
  exists k', from_dict data = Raise (KeyError k').
Proof.
  intros Hin Hk. destruct (from_dict data) as [bar|e] eqn:E.
  - exfalso. apply from_dict_Ok in E as (? & ? & ? & ? & ? & ?).
    repeat (apply elem_of_cons in Hin as [->|Hin]; [congruence|]).
    inversion Hin.
  - destruct (from_dict_Raise data e E) as (k' & -> & _). eauto.
Qed.

Lemma from_dict_to_dict (bar : OHLCV) : from_dict (to_dict bar) = Ok bar.
Proof.
  apply from_dict_Ok. unfold to_dict.
  repeat split;
    repeat (first [apply lookup_insert_eq
                  |rewrite lookup_insert_ne by discriminate]).
Qed.

Lemma mapM_Ok {A B : Type} (f : A -> result B) (xs : list A) (ys : list B) :
  mapM f xs = Ok ys -> Forall2 (fun x y => f x = Ok y) xs ys.
Proof.
  revert ys. induction xs as [|x xs IH]; intros ys; cbn [mapM].
  - intros H. injection H as <-. constructor.
  - destruct (f x) as [y|e] eqn:Ex; cbn [mbind result_bind]; [|discriminate].
    destruct (mapM f xs) as [ys'|e]; cbn [mbind result_bind]; [|discriminate].
    intros H. injection H as <-. constructor; [exact Ex|]. apply IH. reflexivity.
Qed.

Lemma mapM_Raise {A B : Type} (f : A -> result B) (xs : list A) (e : exn) :
  mapM f xs = Raise e -> exists x, x ∈ xs /\ f x = Raise e.
Proof.
  induction xs as [|x xs IH]; cbn [mapM]; [discriminate|].
  destruct (f x) as [y|e'] eqn:Ex; cbn [mbind result_bind].
  - destruct (mapM f xs) as [ys'|e']; cbn [mbind result_bind]; [discriminate|].
    intros H. injection H as ->. destruct IH as (x' & Hin & Hx'); [reflexivity|].
    exists x'. split; [right; exact Hin|exact Hx'].
  - intros H. injection H as ->. exists x. split; [left|exact Ex].
Qed.

Lemma mapM_fails {A B : Type} (f : A -> result B) (xs : list A) (x : A) :
  x ∈ xs -> (exists e, f x = Raise e) -> exists e, mapM f xs = Raise e.
Proof.
  intros Hin [e He]. induction xs as [|x' xs IH]; [inversion Hin|].
  cbn [mapM]. apply elem_of_cons in Hin as [<-|Hin].
  - rewrite He. eauto.
  - destruct (f x') as [y|e']; cbn [mbind result_bind]; [|eauto].
    destruct (IH Hin) as [e' ->]. eauto.
Qed.

(** X17.  Bars and their dictionaries.  [from_dict] undoes [to_dict];
    it returns a bar exactly when the dictionary has the six keys, the
    fields of the bar being their values (further keys are ignored);
    otherwise it raises [KeyError] for one of the six keys, which the
    dictionary lacks.  A list of dictionaries converts to the list of
    its bars, in order, or fails as the first dictionary that fails. *)
Theorem X17_bar_dict_round_trip :
  (forall bar, from_dict (to_dict bar) = Ok bar) /\
  (forall bars, mapM from_dict (to_dict <$> bars) = Ok bars) /\
  (forall data bar,
     from_dict data = Ok bar <->
     data !! "time" = Some (time bar) /\ data !! "open" = Some (open bar) /\
     data !! "high" = Some (high bar) /\ data !! "low" = Some (low bar) /\
     data !! "close" = Some (close bar) /\ data !! "volume" = Some (volume bar)) /\
  (forall data e,
     from_dict data = Raise e ->
     exists k, e = KeyError k /\
               k ∈ ["time"; "open"; "high"; "low"; "close"; "volume"] /\
               data !! k = None).
Proof.
  split; [exact from_dict_to_dict|]. split; [|split].
  - intros bars. induction bars as [|bar bars IH]; [reflexivity|].
    rewrite fmap_cons. cbn [mapM]. rewrite from_dict_to_dict, IH. reflexivity.
  - exact from_dict_Ok.
  - exact from_dict_Raise.
Qed.

End BarDictionaries.

(* ===================================================================== *)
(** * Further properties of the ingestion client                          *)
(* ===================================================================== *)

Section EngineErrors.

Import Aggregator Spec Invariants Props.

Variable utc_offset : Z.







End EngineErrors.


Section MessageLoop.

Import Aggregator Spec Invariants Props WsClient Ingestion BarDict.

Variable utc_offset : Z.
Variable on_bar_update : bool.












(** X19.  A data frame with a malformed bar is dropped whole.  If any
    dictionary of the series lacks one of the six keys, [_process_bars]
    raises [KeyError] before any bar is fed: the message loop goes on
    with the client unchanged (the well-formed bars of the frame, also
    those before the malformed one, never reach the engine) and the
    callback is not called. *)
Theorem X19_malformed_frame_is_dropped (series : list (gmap string Z))
    (c : client) (data : gmap string Z) (k : string) :
  data ∈ series ->
  k ∈ ["time"; "open"; "high"; "low"; "close"; "volume"] ->
  data !! k = None ->
  (exists k', _process_bars utc_offset on_bar_update series c
              = (c, [], Raise (KeyError k'))) /\
  on_message utc_offset on_bar_update (Data (Some series)) c = (c, []) /\
  frame_bars (Data (Some series)) = [].
Proof.
  intros Hin Hk Hnone.
  destruct (from_dict_missing data k Hk Hnone) as [k0 Hk0].
  destruct (mapM_fails from_dict series data Hin) as [e He]; [eauto|].
  destruct (mapM_Raise _ _ _ He) as (d & _ & Hd).
  destruct (from_dict_Raise d e Hd) as (k' & -> & _).
  split; [|split].
  - exists k'. unfold _process_bars. rewrite He. reflexivity.
  - unfold on_message. destruct series as [|d0 series]; [reflexivity|].
    unfold _process_bars. rewrite He. reflexivity.
  - unfold frame_bars. rewrite He. reflexivity.
Qed.


End MessageLoop.

(** X19 on a frame whose second bar lacks its close, and X20 on a
    status frame, a frame of one bar and a pong, on a new client. *)
Lemma X19_witness :
  Ingestion.on_message 0 true
    (Ingestion.Data
       (Some [BarDict.to_dict (Samples.minute_bar 1);
              delete "close" (BarDict.to_dict (Samples.minute_bar 2))]))
    (WsClient.__init__ "key" "CME_MINI:MNQ1!")
  = (WsClient.__init__ "key" "CME_MINI:MNQ1!", []).
Proof.
  destruct (X19_malformed_frame_is_dropped 0 true
              [BarDict.to_dict (Samples.minute_bar 1);
               delete "close" (BarDict.to_dict (Samples.minute_bar 2))]
              (WsClient.__init__ "key" "CME_MINI:MNQ1!")
              (delete "close" (BarDict.to_dict (Samples.minute_bar 2)))
              "close")
    as (_ & H & _).
  - right. left.
  - literal_member.
  - apply lookup_delete_eq.
  - exact H.
Defined.


Section IngestionClientMore.

Import WsClient Invariants Ingestion.

Local Open Scope nat_scope.

Lemma sleeps_app (tr tr' : list event) :
  sleeps (tr ++ tr') = sleeps tr ++ sleeps tr'.
Proof. unfold sleeps. apply omap_app. Qed.

(** The delays that a client with the settings of [c] may sleep. *)
Lemma on_connection_closed_sleeps (c : client) :
  reconnect_attempts c < max_reconnect_attempts c ->
  Forall (fun d => exists k, k + 2 <= max_reconnect_attempts c /\
                             d = base_reconnect_delay c * 2 ^ k)
         (sleeps (on_connection_closed c).2) /\
  length (sleeps (on_connection_closed c).2) <= 1.
Proof.
  intros Hlt.
  pose proof (on_connection_closed_spec c) as (_ & _ & _ & _ & _ & Hev).
  cbv zeta in Hev. rewrite Hev.
  destruct (Nat.ltb_spec (reconnect_attempts c + 1) (max_reconnect_attempts c))
    as [Ha|Ha].
  - cbn [sleeps omap list_omap length]. split; [|lia].
    constructor; [|constructor].
    exists (reconnect_attempts c). split; [lia|].
    replace (reconnect_attempts c + 1 - 1) with (reconnect_attempts c) by lia.
    reflexivity.
  - cbn [sleeps omap list_omap length]. split; [constructor|lia].
Qed.

Lemma connect_iter_sleeps (o : attempt) (c : client) :
  1 <= max_reconnect_attempts c ->
  reconnect_attempts c < max_reconnect_attempts c ->
  Forall (fun d => exists k, k + 2 <= max_reconnect_attempts c /\
                             d = base_reconnect_delay c * 2 ^ k)
         (sleeps (connect_iter o c).1.2) /\
  length (sleeps (connect_iter o c).1.2)
  <= length (connects (connect_iter o c).1.2).
Proof.
  intros Hmax Hlt.
  destruct o as [| |agg e]; cbn [connect_iter].
  - pose proof (on_connection_closed_sleeps c Hlt) as [Hd Hn].
    destruct (on_connection_closed c) as [c' evs]. cbn [fst snd] in *.
    cbn [sleeps connects omap list_omap length]. split; [exact Hd|].
    fold (sleeps evs). fold (connects evs). lia.
  - cbn. split; [constructor|lia].
  - destruct e.
    + match goal with |- context [on_connection_closed ?x] =>
        pose proof (on_connection_closed_sleeps x) as [Hd Hn];
        [cbn; lia|];
        destruct (on_connection_closed x) as [c' evs] end.
      cbn [fst snd] in *.
      cbn [sleeps connects omap list_omap length]. split; [exact Hd|].
      fold (sleeps evs). fold (connects evs). lia.
    + cbn. split; [constructor|lia].
    + cbn. split; [constructor|lia].
Qed.

Lemma connect_iter_identity (o : attempt) (c : client) :
  api_key (connect_iter o c).1.1 = api_key c /\
  symbol (connect_iter o c).1.1 = symbol c.
Proof.
  destruct c as [key sym agg ws conn mx base att].
  destruct o as [| |agg' e]; cbn [connect_iter].
  - unfold on_connection_closed. cbn -[Nat.ltb Nat.pow Nat.add Nat.sub Nat.mul].
    destruct (_ <? _); split; reflexivity.
  - split; reflexivity.
  - destruct e; cbn -[Nat.ltb Nat.pow Nat.add Nat.sub Nat.mul].
    + unfold on_connection_closed.
      cbn -[Nat.ltb Nat.pow Nat.add Nat.sub Nat.mul].
      destruct (_ <? _); split; reflexivity.
    + split; reflexivity.
    + split; reflexivity.
Qed.

Lemma connect_sleeps (script : list attempt) (c : client) :
  Forall (fun d => exists k, k + 2 <= max_reconnect_attempts c /\
                             d = base_reconnect_delay c * 2 ^ k)
         (sleeps (connect script c).1.2) /\
  length (sleeps (connect script c).1.2)
  <= length (connects (connect script c).1.2) /\
  api_key (connect script c).1.1 = api_key c /\
  symbol (connect script c).1.1 = symbol c.
Proof.
  revert c. induction script as [|o rest IH]; intros c; rewrite connect_unfold.
  - destruct (_ <? _); cbn; repeat split; try constructor.
  - destruct (Nat.ltb_spec (reconnect_attempts c) (max_reconnect_attempts c))
      as [Hlt|Hge]; [|cbn; repeat split; constructor].
    pose proof (connect_iter_sleeps o c ltac:(lia) Hlt) as [Hd Hn].
    pose proof (connect_iter_fields o c) as (Hm & Hb & _).
    pose proof (connect_iter_identity o c) as [Hk Hs].
    destruct (connect_iter o c) as [[c1 evs] brk]. cbn [fst snd] in *.
    destruct brk; cbn [fst snd]; [auto|].
    specialize (IH c1). destruct (connect rest c1) as [[c2 evs'] ret].
    cbn [fst snd] in *. destruct IH as (Hd' & Hn' & Hk' & Hs').
    rewrite Hm, Hb in Hd'.
    rewrite sleeps_app, connects_app, !length_app.
    split; [apply Forall_app; auto|]. split; [lia|]. split; congruence.
Qed.

(** Once [connect] has returned, what the environment would have done
    next does not matter. *)
Lemma connect_returned_app (script rest : list attempt) (c : client) :
  (connect script c).2 = true -> connect (script ++ rest) c = connect script c.
Proof.
  revert c. induction script as [|o script IH]; intros c.
  - cbn [app]. rewrite (connect_unfold rest c). cbn [connect].
    destruct (_ <? _); [discriminate|reflexivity].
  - cbn [app]. rewrite (connect_unfold (o :: script ++ rest) c).
    rewrite (connect_unfold (o :: script) c).
    destruct (_ <? _); [|reflexivity].
    destruct (connect_iter o c) as [[c1 evs] brk].
    destruct brk; [reflexivity|].
    specialize (IH c1). destruct (connect script c1) as [[c2 evs'] ret].
    cbn [snd]. intros Hret. rewrite IH by exact Hret. reflexivity.
Qed.

(** X21.  The reconnection delays.  Whatever the environment does, every
    delay that [connect] sleeps is [base_reconnect_delay * 2 ^ k] for
    some [k <= max_reconnect_attempts - 2]; [connect] never sleeps more
    often than it has tried to connect and changes neither the API key
    nor the tracked symbol.  For a new client the delays are among 1, 2,
    4 and 8 seconds; when every attempt is refused, it gives up after 5
    attempts, having slept 1, 2, 4 and 8 seconds between them, whatever
    the environment would have done after. *)
Theorem X21_backoff_delays (script : list attempt) (c : client)
    (key sym : string) :
  Forall (fun d => exists k, k + 2 <= max_reconnect_attempts c /\
                             d = base_reconnect_delay c * 2 ^ k)
         (sleeps (connect script c).1.2) /\
  length (sleeps (connect script c).1.2)
  <= length (connects (connect script c).1.2) /\
  api_key (connect script c).1.1 = api_key c /\
  symbol (connect script c).1.1 = symbol c /\
  Forall (fun d => d ∈ [1; 2; 4; 8])
         (sleeps (connect script (__init__ key sym)).1.2) /\
  (connect (replicate 5 ConnectClosed ++ script) (__init__ key sym)).1.2
  = [EvConnect false; EvSleep 1; EvConnect false; EvSleep 2;
     EvConnect false; EvSleep 4; EvConnect false; EvSleep 8;
     EvConnect false] /\
  (connect (replicate 5 ConnectClosed ++ script) (__init__ key sym)).2 = true.
Proof.
  destruct (connect_sleeps script c) as (Hd & Hn & Hk & Hs).
  split; [exact Hd|]. split; [exact Hn|]. split; [exact Hk|]. split; [exact Hs|].
  split; [|split].
  - destruct (connect_sleeps script (__init__ key sym)) as (Hd' & _).
    eapply Forall_impl; [exact Hd'|]. cbn beta.
    cbn [__init__ max_reconnect_attempts base_reconnect_delay].
    intros d (k & Hk' & ->).
    assert (Hcases : k = 0 \/ k = 1 \/ k = 2 \/ k = 3) by lia.
    destruct Hcases as [-> | [-> | [-> | ->]]]; cbn; literal_member.
  - rewrite connect_returned_app by (vm_compute; reflexivity).
    vm_compute. reflexivity.
  - rewrite connect_returned_app by (vm_compute; reflexivity).
    vm_compute. reflexivity.
Qed.

(** X22.  Closing and pinging.  [close] and [send_ping] never raise.
    [close] on a client that holds a connection object clears the
    connected flag and nothing else (the connection object stays in
    place and the attempt counter is kept); on a client that holds none
    it does nothing.  On a client that satisfies the class invariant,
    after [close] the client is not connected, [send_ping] sends
    nothing, [switch_symbol] raises [RuntimeError] and leaves the state,
    and a second [close] changes nothing.  [send_ping] sends one "ping"
    frame when the client is connected and holds a connection object,
    and nothing otherwise. *)
Theorem X22_close_and_ping (c : client) :
  client_inv c ->
  let c' := (close c).1 in
  (close c).2 = Ok tt /\
  c' = (if is_connected c then set_is_connected false c else c) /\
  client_inv c' /\
  is_connected c' = false /\
  send_ping c' = (c', Ok tt) /\
  (forall new_symbol,
     switch_symbol new_symbol c'
     = (c', Raise (RuntimeError "WebSocket not connected"))) /\
  close c' = (c', Ok tt) /\
  send_ping c
  = (match websocket c with
     | Some ws =>
         if is_connected c
         then set_websocket (Some (mkWebSocket (sent ws ++ [Ping]))) c
         else c
     | None => c
     end, Ok tt).
Proof.
  intros Hinv c'. subst c'. unfold client_inv in Hinv.
  destruct c as [key sym agg ws conn mx base att].
  cbn [is_connected websocket] in *.
  destruct conn.
  - destruct (Hinv eq_refl) as [w ->]. cbn.
    repeat split; discriminate.
  - destruct ws as [w|]; cbn; repeat split; discriminate.
Qed.

End IngestionClientMore.

(** X22 on a client that has connected. *)
Lemma X22_witness :
  WsClient.is_connected
    (WsClient.close
       (WsClient.connect_iter
          (WsClient.Connected Aggregator.__init__ WsClient.SessionReturned)
          (WsClient.__init__ "key" "CME_MINI:MNQ1!")).1.1).1 = false.
Proof.
  destruct (X22_close_and_ping
              (WsClient.connect_iter
                 (WsClient.Connected Aggregator.__init__ WsClient.SessionReturned)
                 (WsClient.__init__ "key" "CME_MINI:MNQ1!")).1.1)
    as (_ & _ & _ & H & _).
  - intros _. eexists. reflexivity.
  - exact H.
Defined.

(* ===================================================================== *)
(** * The REST client and the chart history endpoint                      *)
(* ===================================================================== *)

Section RestClient.

Import Api BarDict.

Lemma get_hit (symbol timeframe : string) (self : Cache.DataCache)
    (cached : list OHLCV) :
  Cache._cache self !! (symbol, timeframe) = Some cached ->
  Cache.get symbol timeframe self
  = (Cache.mkCache (Cache._cache self) (Cache._cache_hits self + 1)
                   (Cache._cache_misses self), Some cached).
Proof. intros H. unfold Cache.get. rewrite H. reflexivity. Qed.

Lemma get_miss (symbol timeframe : string) (self : Cache.DataCache) :
  Cache._cache self !! (symbol, timeframe) = None ->
  Cache.get symbol timeframe self
  = (Cache.mkCache (Cache._cache self) (Cache._cache_hits self)
                   (Cache._cache_misses self + 1), None).
Proof. intros H. unfold Cache.get. rewrite H. reflexivity. Qed.

Lemma _parse_response_Raise (data : option (list (gmap string Z))) (e : exn) :
  _parse_response data = Raise e ->
  (data = None /\
   e = ValueError "Invalid response format: 'series' key missing") \/
  (exists series bar_data k,
     data = Some series /\ bar_data ∈ series /\
     k ∈ ["time"; "open"; "high"; "low"; "close"; "volume"] /\
     bar_data !! k = None /\ e = KeyError k).
Proof.
  destruct data as [series|]; unfold _parse_response.
  - intros H. right. destruct (mapM_Raise _ _ _ H) as (bar_data & Hin & Hd).
    destruct (from_dict_Raise _ _ Hd) as (k & -> & Hk & Hnone).
    exists series, bar_data, k. auto.
  - intros H. injection H as <-. left. auto.
Qed.

Lemma fetch_hit (symbol timeframe : string) (bars : Z) (upstream : response)
    (self : InsightSentryAPI) (cached : list OHLCV) :
  is_Some (TIMEFRAME_MAP !! timeframe) ->
  Cache._cache (cache self) !! (symbol, timeframe) = Some cached ->
  fetch_historical_data symbol timeframe bars upstream self
  = (mkApi (Cache.mkCache (Cache._cache (cache self))
                          (Cache._cache_hits (cache self) + 1)
                          (Cache._cache_misses (cache self)))
           (rate_limiter self) (clock self) (requested self),
     Returns (last_bars bars cached)).
Proof.
  intros [[bar_type bar_interval] Htf] Hc. unfold fetch_historical_data.
  rewrite Htf, (get_hit _ _ _ _ Hc). reflexivity.
Qed.

(** X23.  What [fetch_historical_data] returns, raises and changes, for
    a client whose limiter has [rate_limit >= 1] and [period >= 1] (as
    the limiter of [__init__] has).  It returns on a hit (the last
    [bars] cached bars; no request is made and the limiter is not
    touched) and on a miss answered by a series all of whose
    dictionaries convert (the whole series, which is then stored; one
    request was made).  It raises [ValueError] for a timeframe outside
    the map, before the cache is read, and for a response without
    "series"; [KeyError] for a dictionary that lacks a key; and what the
    request raised.  A call that raises leaves what is stored
    unchanged. *)
Theorem X23_fetch_outcomes (symbol timeframe : string) (bars : Z)
    (upstream : response) (self : InsightSentryAPI) :
  (1 <= RateLimiter.rate_limit (rate_limiter self))%Z ->
  (1 <= RateLimiter.period (rate_limiter self))%Z ->
  let self' := (fetch_historical_data symbol timeframe bars upstream self).1 in
  let stored := Cache._cache (cache self) in
  match (fetch_historical_data symbol timeframe bars upstream self).2 with
  | Returns ohlcv_bars =>
      is_Some (TIMEFRAME_MAP !! timeframe) /\
      ((exists cached,
          stored !! (symbol, timeframe) = Some cached /\
          ohlcv_bars = last_bars bars cached /\
          Cache._cache (cache self') = stored /\
          Cache._cache_hits (cache self') = (Cache._cache_hits (cache self) + 1)%Z /\
          rate_limiter self' = rate_limiter self /\
          clock self' = clock self /\
          requested self' = requested self)
       \/
       (exists series bar_type bar_interval,
          stored !! (symbol, timeframe) = None /\
          upstream = Json (Some series) /\
          mapM from_dict series = Ok ohlcv_bars /\
          TIMEFRAME_MAP !! timeframe = Some (bar_type, bar_interval) /\
          Cache._cache (cache self') = <[(symbol, timeframe) := ohlcv_bars]> stored /\
          Cache._cache_misses (cache self')
            = (Cache._cache_misses (cache self) + 1)%Z /\
          requested self'
            = requested self ++ [mkRequest symbol bar_type bar_interval bars]))
  | Raises e =>
      Cache._cache (cache self') = stored /\
      ((TIMEFRAME_MAP !! timeframe = None /\ self' = self /\
        e = PyError (ValueError ("Invalid timeframe: " +:+ timeframe)))
       \/
       (is_Some (TIMEFRAME_MAP !! timeframe) /\
        stored !! (symbol, timeframe) = None /\
        length (requested self') = S (length (requested self)) /\
        ((exists value_error msg,
            upstream = Fails value_error msg /\ e = RequestError value_error msg)
         \/ (upstream = Json None /\
             e = PyError (ValueError "Invalid response format: 'series' key missing"))
         \/ (exists series bar_data k,
               upstream = Json (Some series) /\ bar_data ∈ series /\
               k ∈ ["time"; "open"; "high"; "low"; "close"; "volume"] /\
               bar_data !! k = None /\ e = PyError (KeyError k)))))
  end.
Proof.
  intros Hn Hp self' stored. subst self' stored.
  unfold fetch_historical_data.
  destruct (TIMEFRAME_MAP !! timeframe) as [[bar_type bar_interval]|] eqn:Htf.
  2:{ cbn [fst snd]. split; [reflexivity|]. left. auto. }
  destruct (Cache._cache (cache self) !! (symbol, timeframe)) as [cached|] eqn:Hc.
  - rewrite (get_hit _ _ _ _ Hc). cbn [fst snd cache rate_limiter clock requested
                                       Cache._cache Cache._cache_hits].
    split; [eauto|]. left. exists cached. repeat split.
  - rewrite (get_miss _ _ _ Hc).
    destruct (wait_if_needed_returns (rate_limiter self) (clock self) Hn Hp)
      as (limiter1 & clock1 & -> & _).
    destruct upstream as [value_error msg|data].
    + cbn [fst snd cache requested Cache._cache]. split; [reflexivity|]. right.
      split; [eauto|]. split; [reflexivity|].
      split; [rewrite length_app; cbn; lia|]. left. eauto.
    + destruct (_parse_response data) as [ohlcv_bars|e] eqn:Hparse.
      * cbn [fst snd cache requested Cache._cache Cache._cache_misses Cache.set].
        split; [eauto|]. right.
        destruct data as [series|]; [|discriminate].
        exists series, bar_type, bar_interval. repeat split. exact Hparse.
      * cbn [fst snd cache requested Cache._cache]. split; [reflexivity|]. right.
        split; [eauto|]. split; [reflexivity|].
        split; [rewrite length_app; cbn; lia|]. right.
        destruct (_parse_response_Raise data e Hparse)
          as [[-> ->]|(series & bar_data & k & -> & Hin & Hk & Hnone & ->)].
        -- left. auto.
        -- right. exists series, bar_data, k. auto.
Qed.

(** X24.  The cache is never refreshed.  Once [fetch_historical_data]
    has returned for a symbol and timeframe, every later call for them
    (nothing having been set or cleared in between) is served from what
    is stored, whatever number of bars it asks for and whatever the
    upstream service would answer: it makes no request, does not touch
    the limiter, and returns the last [bars] of the stored series.  The
    stored series is what the first call returned when that was a miss
    (having fetched 10 bars, a call for 1000 gets those 10). *)
Theorem X24_served_from_cache_ever_after (symbol timeframe : string)
    (bars : Z) (upstream : response) (self self1 : InsightSentryAPI)
    (ohlcv_bars : list OHLCV) :
  fetch_historical_data symbol timeframe bars upstream self
    = (self1, Returns ohlcv_bars) ->
  exists stored_bars,
    Cache._cache (cache self1) !! (symbol, timeframe) = Some stored_bars /\
    ohlcv_bars = (if bool_decide
                       (is_Some (Cache._cache (cache self) !! (symbol, timeframe)))
                  then last_bars bars stored_bars else stored_bars) /\
    forall bars' upstream',
      fetch_historical_data symbol timeframe bars' upstream' self1
      = (mkApi (Cache.mkCache (Cache._cache (cache self1))
                              (Cache._cache_hits (cache self1) + 1)
                              (Cache._cache_misses (cache self1)))
               (rate_limiter self1) (clock self1) (requested self1),
         Returns (last_bars bars' stored_bars)).
Proof.
  intros H.
  assert (Htf : is_Some (TIMEFRAME_MAP !! timeframe)).
  { unfold fetch_historical_data in H.
    destruct (TIMEFRAME_MAP !! timeframe); [eauto|discriminate]. }
  assert (Hstored : exists stored_bars,
            Cache._cache (cache self1) !! (symbol, timeframe) = Some stored_bars /\
            ohlcv_bars
            = (if bool_decide
                    (is_Some (Cache._cache (cache self) !! (symbol, timeframe)))
               then last_bars bars stored_bars else stored_bars)).
  { unfold fetch_historical_data in H.
    destruct (TIMEFRAME_MAP !! timeframe) as [[bar_type bar_interval]|];
      [|discriminate].
    destruct (Cache._cache (cache self) !! (symbol, timeframe))
      as [cached|] eqn:Hc.
    - rewrite (get_hit _ _ _ _ Hc) in H. injection H as <- <-.
      exists cached. cbn [cache Cache._cache]. split; [exact Hc|].
      rewrite bool_decide_eq_true_2 by eauto. reflexivity.
    - rewrite (get_miss _ _ _ Hc) in H. cbv beta iota zeta in H.
      destruct (RateLimiter.wait_if_needed (rate_limiter self) (clock self))
        as [[limiter1 clock1]|]; [|discriminate].
      destruct upstream as [value_error msg|data]; [discriminate|].
      destruct (_parse_response data) as [parsed|e]; [|discriminate].
      injection H as <- <-.
      exists parsed. cbn [cache Cache._cache Cache.set].
      split; [apply lookup_insert_eq|].
      rewrite bool_decide_eq_false_2 by (intros [v Hv]; discriminate).
      reflexivity. }
  destruct Hstored as (stored_bars & Hs & Hret).
  exists stored_bars. split; [exact Hs|]. split; [exact Hret|].
  intros bars' upstream'. apply fetch_hit; assumption.
Qed.

End RestClient.

(** X23 and X24 on a new client and a response of one bar. *)
Lemma X23_witness :
  match (Api.fetch_historical_data "CME_MINI:MNQ1!" "1H" 10
           (Api.Json (Some [BarDict.to_dict (Samples.minute_bar 1)]))
           (Api.__init__ Cache.__init__ (RateLimiter.mkWorld 0 []))).2 with
  | Api.Returns _ => is_Some (Api.TIMEFRAME_MAP !! "1H")
  | Api.Raises _ => True
  end.
Proof.
  pose proof (X23_fetch_outcomes "CME_MINI:MNQ1!" "1H" 10
                (Api.Json (Some [BarDict.to_dict (Samples.minute_bar 1)]))
                (Api.__init__ Cache.__init__ (RateLimiter.mkWorld 0 []))) as H.
  cbv zeta in H.
  destruct (Api.fetch_historical_data _ _ _ _ _).2.
  - apply H; cbn; lia.
  - exact I.
Defined.

Lemma X24_witness :
  exists stored_bars,
    (Api.fetch_historical_data "CME_MINI:MNQ1!" "1H" 1000
       (Api.Fails false "unreachable")
       (Api.fetch_historical_data "CME_MINI:MNQ1!" "1H" 10
          (Api.Json (Some [BarDict.to_dict (Samples.minute_bar 1)]))
          (Api.__init__ Cache.__init__ (RateLimiter.mkWorld 0 []))).1).2
    = Api.Returns (Api.last_bars 1000 stored_bars).
Proof.
  set (out := Api.fetch_historical_data "CME_MINI:MNQ1!" "1H" 10
                (Api.Json (Some [BarDict.to_dict (Samples.minute_bar 1)]))
                (Api.__init__ Cache.__init__ (RateLimiter.mkWorld 0 []))).
  assert (E : out = (out.1, Api.Returns [Samples.minute_bar 1]))
    by (vm_compute; reflexivity).
  destruct (X24_served_from_cache_ever_after _ _ _ _ _ _ _ E)
    as (stored_bars & _ & _ & Hlater).
  exists stored_bars. rewrite Hlater. reflexivity.
Defined.

Section ChartHistory.

Import Api BarDict Server.

Variable utc_offset : Z.

Lemma fetch_keeps_monthly_absent (symbol timeframe : string) (bars : Z)
    (upstream : response) (self : InsightSentryAPI) :
  timeframe <> "1M" -> monthly_absent self ->
  monthly_absent (fetch_historical_data symbol timeframe bars upstream self).1.
Proof.
  intros Hne Habs s. unfold fetch_historical_data.
  destruct (TIMEFRAME_MAP !! timeframe) as [[bar_type bar_interval]|];
    [|apply Habs].
  unfold Cache.get.
  destruct (Cache._cache (cache self) !! (symbol, timeframe)) as [cached|];
    cbv beta iota zeta; [apply Habs|].
  destruct (RateLimiter.wait_if_needed (rate_limiter self) (clock self))
    as [[limiter1 clock1]|]; [|apply Habs].
  destruct upstream as [value_error msg|data]; [apply Habs|].
  destruct (_parse_response data) as [ohlcv_bars|e]; [|apply Habs].
  cbn [fst cache Cache.set Cache._cache].
  rewrite lookup_insert_ne by congruence. apply Habs.
Qed.

Lemma get_chart_history_monthly (symbol timeframe : string) (bars : Z)
    (upstream : response) (api_client : InsightSentryAPI) :
  monthly_absent api_client ->
  monthly_absent
    (get_chart_history utc_offset symbol timeframe bars upstream api_client).1 /\
  (timeframe = "1M" ->
   refused (get_chart_history utc_offset symbol timeframe bars upstream api_client).2).
Proof.
  intros Habs. unfold get_chart_history.
  destruct (Cache._cache (cache api_client) !! (symbol, timeframe))
    as [cached|] eqn:Hc.
  - rewrite (get_hit _ _ _ _ Hc). cbn [fst snd]. split; [exact Habs|].
    intros ->. rewrite Habs in Hc. discriminate.
  - rewrite (get_miss _ _ _ Hc).
    set (api1 := mkApi _ _ _ _).
    assert (Habs1 : monthly_absent api1) by exact Habs.
    assert (Href : forall e, refused (on_exception e)).
    { intros [[]|[] msg]; cbn; unfold refused; eauto. }
    destruct (bool_decide (timeframe ∈ ["1D"; "1W"; "1M"])) eqn:Hagg.
    + pose proof (fetch_keeps_monthly_absent symbol "1m" (bars * 1440) upstream
                    api1 ltac:(discriminate) Habs1) as Habs2.
      destruct (fetch_historical_data symbol "1m" (bars * 1440) upstream api1)
        as [api2 [bars_1m|e]]; cbn [fst snd] in *.
      * destruct (Aggregator.aggregate_historical_1m_to_timeframe
                    utc_offset bars_1m timeframe) as [aggregated|e] eqn:Hagg2;
          cbn [fst snd].
        -- assert (Hne : timeframe <> "1M").
           { intros ->. rewrite monthly_target_raises in Hagg2. discriminate. }
           split.
           ++ intros s. cbn [cache Cache.set Cache._cache].
              rewrite lookup_insert_ne by congruence. apply Habs2.
           ++ intros E. destruct (Hne E).
        -- split; [exact Habs2|]. intros _. apply Href.
      * split; [exact Habs2|]. intros _. apply Href.
    + assert (Hne : timeframe <> "1M").
      { intros ->. apply bool_decide_eq_false in Hagg. apply Hagg.
        literal_member. }
      pose proof (fetch_keeps_monthly_absent symbol timeframe bars upstream
                    api1 Hne Habs1) as Habs2.
      destruct (fetch_historical_data symbol timeframe bars upstream api1)
        as [api2 [ohlcv_bars|e]]; cbn [fst snd] in *.
      * split; [exact Habs2|]. intros E. destruct (Hne E).
      * split; [exact Habs2|]. intros E. destruct (Hne E).
Qed.

(** X25.  The timeframe "1M" is never served.  Nothing in the endpoint
    stores a series for "1M": starting from a cache without such an
    entry, after any run of requests (any symbols, timeframes, bar
    counts and upstream answers) there is still none, and every request
    for "1M" in the run was answered 400 or 500, never 200. *)
Theorem X25_monthly_is_never_served (calls : list call)
    (api_client : InsightSentryAPI) :
  monthly_absent api_client ->
  monthly_absent (serve utc_offset calls api_client).1 /\
  Forall2 (fun c r =>
             call_timeframe c = "1M" ->
             r = Error500 \/ exists detail, r = Error400 detail)
          calls (serve utc_offset calls api_client).2.
Proof.
  revert api_client. induction calls as [|c calls IH]; intros api_client Habs.
  - cbn. split; [exact Habs|constructor].
  - cbn [serve].
    destruct (get_chart_history_monthly (call_symbol c) (call_timeframe c)
                (call_bars c) (call_upstream c) api_client Habs) as [Habs1 Href].
    destruct (get_chart_history utc_offset (call_symbol c) (call_timeframe c)
                (call_bars c) (call_upstream c) api_client) as [api1 r].
    cbn [fst snd] in Habs1, Href.
    destruct (IH api1 Habs1) as [Habs2 Hall].
    destruct (serve utc_offset calls api1) as [api2 rs]. cbn [fst snd] in *.
    split; [exact Habs2|]. constructor; [exact Href|exact Hall].
Qed.



(** X27.  A request for another timeframe on a cold cache.  For a
    timeframe other than "1D", "1W" and "1M" under which nothing is
    stored for the symbol, the endpoint answers: 400 "Invalid timeframe"
    for a timeframe outside the map of the REST client (one miss
    counted, nothing asked); otherwise, having counted two misses and
    asked once, the upstream series as it came (neither aggregated nor
    cut to [bars]) with [cached = false]; 400 for a response without
    "series" and for a request failure whose exception derives from
    [ValueError]; 500 for any other request failure and for a malformed
    bar. *)
Theorem X27_direct_request (symbol timeframe : string) (bars : Z)
    (upstream : response) (api_client : InsightSentryAPI) :
  timeframe ∉ ["1D"; "1W"; "1M"] ->
  (1 <= RateLimiter.rate_limit (rate_limiter api_client))%Z ->
  (1 <= RateLimiter.period (rate_limiter api_client))%Z ->
  Cache._cache (cache api_client) !! (symbol, timeframe) = None ->
  let out :=
    get_chart_history utc_offset symbol timeframe bars upstream api_client in
  match TIMEFRAME_MAP !! timeframe with
  | None =>
      out.2 = Error400 ("Invalid timeframe: " +:+ timeframe) /\
      Cache._cache_misses (cache out.1)
      = (Cache._cache_misses (cache api_client) + 1)%Z /\
      requested out.1 = requested api_client
  | Some (bar_type, bar_interval) =>
      Cache._cache_misses (cache out.1)
      = (Cache._cache_misses (cache api_client) + 2)%Z /\
      requested out.1
      = requested api_client ++ [mkRequest symbol bar_type bar_interval bars] /\
      out.2 = match upstream with
              | Fails true msg => Error400 msg
              | Fails false _ => Error500
              | Json None =>
                  Error400 "Invalid response format: 'series' key missing"
              | Json (Some series) =>
                  match mapM from_dict series with
                  | Ok ohlcv_bars =>
                      Ok200 symbol timeframe ohlcv_bars (length ohlcv_bars) false
                  | Raise _ => Error500
                  end
              end
  end.
Proof.
  intros Hdirect Hn Hp Hc out. subst out.
  unfold get_chart_history. rewrite (get_miss _ _ _ Hc).
  rewrite bool_decide_eq_false_2 by exact Hdirect.
  unfold fetch_historical_data.
  destruct (TIMEFRAME_MAP !! timeframe) as [[bar_type bar_interval]|].
  2:{ cbn. auto. }
  cbn [cache rate_limiter clock requested].
  rewrite (get_miss symbol timeframe) by exact Hc.
  destruct (wait_if_needed_returns (rate_limiter api_client) (clock api_client)
              Hn Hp) as (limiter1 & clock1 & -> & _).
  destruct upstream as [[] msg|[series|]]; cbn; try (repeat split; lia).
  destruct (mapM from_dict series) as [ohlcv_bars|e] eqn:Hm.
  - cbn. repeat split; lia.
  - cbn. repeat split; try lia.
    destruct (mapM_Raise _ _ _ Hm) as (d & _ & Hd).
    destruct (from_dict_Raise _ _ Hd) as (k & -> & _). reflexivity.
Qed.

End ChartHistory.

(** X25 on a request for "1M" to a new server; X26 on a daily request
    answered by three bars; X27 on an hourly request answered by one. *)
Lemma X25_witness :
  Forall2 (fun c r =>
             Server.call_timeframe c = "1M" ->
             r = Server.Error500 \/ exists detail, r = Server.Error400 detail)
    [Server.mkCall "CME_MINI:MNQ1!" "1M" 10 (Api.Json (Some []))]
    (Server.serve 0
       [Server.mkCall "CME_MINI:MNQ1!" "1M" 10 (Api.Json (Some []))]
       (Api.__init__ Cache.__init__ (RateLimiter.mkWorld 0 []))).2.
Proof.
  apply (X25_monthly_is_never_served 0
           [Server.mkCall "CME_MINI:MNQ1!" "1M" 10 (Api.Json (Some []))]
           (Api.__init__ Cache.__init__ (RateLimiter.mkWorld 0 []))).
  intros symbol. apply lookup_empty.
Defined.


Lemma X27_witness :
  (Server.get_chart_history 0 "CME_MINI:MNQ1!" "1H" 10
     (Api.Json (Some [BarDict.to_dict (Samples.minute_bar 1)]))
     (Api.__init__ Cache.__init__ (RateLimiter.mkWorld 0 []))).2
  = Server.Ok200 "CME_MINI:MNQ1!" "1H" [Samples.minute_bar 1] 1 false.
Proof.
  pose proof (X27_direct_request 0 "CME_MINI:MNQ1!" "1H" 10
                (Api.Json (Some [BarDict.to_dict (Samples.minute_bar 1)]))
                (Api.__init__ Cache.__init__ (RateLimiter.mkWorld 0 []))) as H.
  cbv zeta in H.
  change (Api.TIMEFRAME_MAP !! "1H") with (Some ("minute", 60)) in H.
  destruct H as (_ & _ & H).
  - intros Hin. no_such_key Hin.
  - cbn. lia.
  - cbn. lia.
  - apply lookup_empty.
  - rewrite H. vm_compute. reflexivity.
Defined.

(* ===================================================================== *)
(** * The live engine and the batch function                              *)
(* ===================================================================== *)

Section LiveAndBatch.

Import Aggregator Spec Invariants Props.

Variable utc_offset : Z.


End LiveAndBatch.
